(** * CoreSecFrame web front end: the terminal session gateway

    A shallow embedding of [static/js/app.js]: the [TerminalManager] class
    (the session registry) and the methods of the Vue application that
    drive it (socket handlers, polling, tool actions, notifications).

    Conventions of the embedding.
    - A JavaScript method becomes a computation [M A]: a function from the
      program state to an outcome (a value or a thrown exception) and the
      state it leaves behind.  Effects done before a [throw] stay done.
    - Objects made by [new] are named by handles drawn from a counter.
    - Every call on an object the program does not define (xterm.js, the
      DOM, the socket, [fetch], the console) and every mutation of the
      registry map is appended to [trace], in program order.
    - What the outside world answers (does the container exist, does
      [dispose] throw, what does a [fetch] return) is read from an [Env].
      Calls for which the [Env] has no entry ([terminal.open], [fit],
      [socket.emit], ...) return normally.
    - An [async] method is run to completion, its awaited values taken from
      the [Env]; a callback handed to [$nextTick] or [setTimeout] is queued
      in the state and run by a later turn of the event loop.
    - Time is the reading [now] of a clock in milliseconds; it moves only
      when the loop lets it, and a [setTimeout] callback runs when the
      clock reaches the time it was set for.
    - [notificationId] is a JavaScript number: counting up is exact below
      2^53 and stops there. *)

From stdpp Require Import base strings gmap list pretty sorting.
From Stdlib Require Import ZArith Lia.

Local Open Scope Z_scope.

(** ** Values *)

(** A thrown [Error] object, with its message. *)
Inductive Exn := JsError (message : string).

(** [`${error}`] for an [Error] object. *)
Definition exn_to_string (e : Exn) : string :=
  match e with JsError m => "Error: " +:+ m end.

Inductive Res (A : Type) :=
| Ok (a : A)
| Throw (e : Exn).
Arguments Ok {A} a.
Arguments Throw {A} e.

(** The tuple stored per session by [TerminalManager.createTerminal]. *)
Record TerminalData := mkTerminalData {
  terminal : nat;
  fitAddon : nat;
  resizeObserver : nat
}.

(** Events the client sends on the socket. *)
Inductive SocketEvent :=
| terminal_input (session_id input : string)
| terminal_resize (session_id : string) (rows cols : Z)
| terminal_create (session_id : string)
| terminal_close (session_id : string)
| execute_tool (tool mode : string).

Inductive Effect :=
| NewTerminal (h : nat)
| NewFitAddon (h : nat)
| NewWebLinksAddon (h : nat)
| LoadAddon (term addon : nat)
| TerminalOpen (term : nat) (containerId : string)
| Fit (addon : nat)
| OnData (term : nat) (sessionId : string)
| NewResizeObserver (h : nat) (sessionId : string)
| Observe (observer : nat) (containerId : string)
| RegistrySet (sessionId : string) (d : TerminalData)
| RegistryDelete (sessionId : string)
| Emit (e : SocketEvent)
| Dispose (term : nat)
| Disconnect (observer : nat)
| TerminalWrite (term : nat) (data : string)
| Fetch (method url body : string)
| ConsoleLog (msg : string)
| ConsoleError (msg : string)
| Unhandled (e : Exn).

#[global] Instance Exn_eq_dec : EqDecision Exn.
Proof. solve_decision. Defined.
#[global] Instance TerminalData_eq_dec : EqDecision TerminalData.
Proof. solve_decision. Defined.
#[global] Instance SocketEvent_eq_dec : EqDecision SocketEvent.
Proof. solve_decision. Defined.
#[global] Instance Effect_eq_dec : EqDecision Effect.
Proof. solve_decision. Defined.

(** Records of the three polled collections, with the fields the
    computed properties read. *)
Record Tool := mkTool { tool_name : string; tool_installed : bool }.
Record Category := mkCategory { category_name : string }.
Record SessionInfo := mkSessionInfo {
  session_id_of : Z;
  session_active : bool;
  session_history : option (list string)
}.

(** An entry of [activeTerminals]. *)
Record ActiveTerminal := mkActiveTerminal {
  sessionId : string;
  title : string;
  minimized : bool
}.

(** An entry of [notifications]; [type] is [ntype]. *)
Record Notification := mkNotification {
  id : Z;
  message : string;
  ntype : string
}.

(** A callback queued by [$nextTick]: the closure of [executeTool],
    [installTool] or [removeTool] with the variables it captured. *)
Inductive Tick :=
| ExecuteTick (sessionId terminalId toolName : string)
| InstallTick (sessionId terminalId toolName : string)
| RemoveTick (sessionId terminalId toolName : string).

(** ** Program state *)

Record State := mkState {
  (* TerminalManager *)
  terminals : gmap string TerminalData;
  (* Vue data() *)
  activeView : string;
  loading : bool;
  tools : list Tool;
  sessions : list SessionInfo;
  categories : list Category;
  showToolModal : bool;
  showSessionModal : bool;
  selectedTool : option Tool;
  selectedSession : option SessionInfo;
  executionMode : string;
  activeTerminals : list ActiveTerminal;
  notifications : list Notification;
  notificationId : Z;
  (* the run time *)
  trace : list Effect;
  next_handle : nat;
  now : Z;
  timers : list (Z * Z);
  ticks : list Tick
}.

(** The setters take the record apart once and rebuild it. *)
Definition set_terminals (f : gmap string TerminalData → gmap string TerminalData)
    (s : State) : State :=
  match s with
  | mkState tm av ld tl ss cs tmod smod st sse em ats ns nid tr nh nw ti tk =>
      mkState (f tm) av ld tl ss cs tmod smod st sse em ats ns nid tr nh nw ti tk
  end.
Definition set_activeView (v : string) (s : State) : State :=
  match s with
  | mkState tm av ld tl ss cs tmod smod st sse em ats ns nid tr nh nw ti tk =>
      mkState tm v ld tl ss cs tmod smod st sse em ats ns nid tr nh nw ti tk
  end.
Definition set_loading (v : bool) (s : State) : State :=
  match s with
  | mkState tm av ld tl ss cs tmod smod st sse em ats ns nid tr nh nw ti tk =>
      mkState tm av v tl ss cs tmod smod st sse em ats ns nid tr nh nw ti tk
  end.
Definition set_tools (v : list Tool) (s : State) : State :=
  match s with
  | mkState tm av ld tl ss cs tmod smod st sse em ats ns nid tr nh nw ti tk =>
      mkState tm av ld v ss cs tmod smod st sse em ats ns nid tr nh nw ti tk
  end.
Definition set_sessions (v : list SessionInfo) (s : State) : State :=
  match s with
  | mkState tm av ld tl ss cs tmod smod st sse em ats ns nid tr nh nw ti tk =>
      mkState tm av ld tl v cs tmod smod st sse em ats ns nid tr nh nw ti tk
  end.
Definition set_categories (v : list Category) (s : State) : State :=
  match s with
  | mkState tm av ld tl ss cs tmod smod st sse em ats ns nid tr nh nw ti tk =>
      mkState tm av ld tl ss v tmod smod st sse em ats ns nid tr nh nw ti tk
  end.
Definition set_showToolModal (v : bool) (s : State) : State :=
  match s with
  | mkState tm av ld tl ss cs tmod smod st sse em ats ns nid tr nh nw ti tk =>
      mkState tm av ld tl ss cs v smod st sse em ats ns nid tr nh nw ti tk
  end.
Definition set_showSessionModal (v : bool) (s : State) : State :=
  match s with
  | mkState tm av ld tl ss cs tmod smod st sse em ats ns nid tr nh nw ti tk =>
      mkState tm av ld tl ss cs tmod v st sse em ats ns nid tr nh nw ti tk
  end.
Definition set_selectedTool (v : option Tool) (s : State) : State :=
  match s with
  | mkState tm av ld tl ss cs tmod smod st sse em ats ns nid tr nh nw ti tk =>
      mkState tm av ld tl ss cs tmod smod v sse em ats ns nid tr nh nw ti tk
  end.
Definition set_selectedSession (v : option SessionInfo) (s : State) : State :=
  match s with
  | mkState tm av ld tl ss cs tmod smod st sse em ats ns nid tr nh nw ti tk =>
      mkState tm av ld tl ss cs tmod smod st v em ats ns nid tr nh nw ti tk
  end.
Definition set_executionMode (v : string) (s : State) : State :=
  match s with
  | mkState tm av ld tl ss cs tmod smod st sse em ats ns nid tr nh nw ti tk =>
      mkState tm av ld tl ss cs tmod smod st sse v ats ns nid tr nh nw ti tk
  end.
Definition set_activeTerminals (v : list ActiveTerminal) (s : State) : State :=
  match s with
  | mkState tm av ld tl ss cs tmod smod st sse em ats ns nid tr nh nw ti tk =>
      mkState tm av ld tl ss cs tmod smod st sse em v ns nid tr nh nw ti tk
  end.
Definition set_notifications (v : list Notification) (s : State) : State :=
  match s with
  | mkState tm av ld tl ss cs tmod smod st sse em ats ns nid tr nh nw ti tk =>
      mkState tm av ld tl ss cs tmod smod st sse em ats v nid tr nh nw ti tk
  end.
Definition set_notificationId (v : Z) (s : State) : State :=
  match s with
  | mkState tm av ld tl ss cs tmod smod st sse em ats ns nid tr nh nw ti tk =>
      mkState tm av ld tl ss cs tmod smod st sse em ats ns v tr nh nw ti tk
  end.
Definition set_trace (v : list Effect) (s : State) : State :=
  match s with
  | mkState tm av ld tl ss cs tmod smod st sse em ats ns nid tr nh nw ti tk =>
      mkState tm av ld tl ss cs tmod smod st sse em ats ns nid v nh nw ti tk
  end.
Definition set_next_handle (v : nat) (s : State) : State :=
  match s with
  | mkState tm av ld tl ss cs tmod smod st sse em ats ns nid tr nh nw ti tk =>
      mkState tm av ld tl ss cs tmod smod st sse em ats ns nid tr v nw ti tk
  end.
Definition set_now (v : Z) (s : State) : State :=
  match s with
  | mkState tm av ld tl ss cs tmod smod st sse em ats ns nid tr nh nw ti tk =>
      mkState tm av ld tl ss cs tmod smod st sse em ats ns nid tr nh v ti tk
  end.
Definition set_timers (v : list (Z * Z)) (s : State) : State :=
  match s with
  | mkState tm av ld tl ss cs tmod smod st sse em ats ns nid tr nh nw ti tk =>
      mkState tm av ld tl ss cs tmod smod st sse em ats ns nid tr nh nw v tk
  end.
Definition set_ticks (v : list Tick) (s : State) : State :=
  match s with
  | mkState tm av ld tl ss cs tmod smod st sse em ats ns nid tr nh nw ti tk =>
      mkState tm av ld tl ss cs tmod smod st sse em ats ns nid tr nh nw ti v
  end.

(** The state built by the [TerminalManager] constructor and [data()],
    at clock reading [t0]. *)
Definition initial_state (t0 : Z) : State :=
  mkState ∅ "dashboard" true [] [] [] false false None None "guided" [] [] 0
    [] 0%nat t0 [] [].

(** ** The computation monad *)

Definition M (A : Type) : Type := State → Res A * State.

#[global] Instance M_ret : MRet M := λ A a s, (Ok a, s).
#[global] Instance M_bind : MBind M := λ A B f m s,
  match m s with
  | (Ok a, s') => f a s'
  | (Throw e, s') => (Throw e, s')
  end.

Definition throw {A} (e : Exn) : M A := λ s, (Throw e, s).

(** [try { body } catch (e) { handler e }] *)
Definition try_catch {A} (body : M A) (handler : Exn → M A) : M A := λ s,
  match body s with
  | (Ok a, s') => (Ok a, s')
  | (Throw e, s') => handler e s'
  end.

Definition gets {A} (f : State → A) : M A := λ s, (Ok (f s), s).
Definition modify (f : State → State) : M unit := λ s, (Ok tt, f s).

(** One call on the outside world, recorded. *)
Definition log (e : Effect) : M unit :=
  modify (λ s, set_trace (trace s ++ [e]) s).

(** [new C(...)]: a fresh handle, recorded by [mk]. *)
Definition new_object (mk : nat → Effect) : M nat := λ s,
  let h := next_handle s in
  (Ok h, set_trace (trace s ++ [mk h]) (set_next_handle (S h) s)).

(** A call that the environment may make throw. *)
Definition call (e : Effect) (outcome : option Exn) : M unit :=
  log e;;
  match outcome with
  | None => mret tt
  | Some err => throw err
  end.

(** [socket.emit(event, payload)] *)
Definition emit (e : SocketEvent) : M unit := log (Emit e).

(** The final state and the result of a computation. *)
Definition exec {A} (m : M A) (s : State) : State := snd (m s).
Definition result {A} (m : M A) (s : State) : Res A := fst (m s).

(** ** The outside world *)

(** What a [fetch] gives back: a rejected promise, or a response with
    its status and what [response.json()] resolves to. *)
Inductive FetchOutcome (A : Type) :=
| Rejected (e : Exn)
| Responded (status : Z) (json : Res A).
Arguments Rejected {A} e.
Arguments Responded {A} status json.

Record Response (A : Type) := mkResponse {
  status : Z;
  json : Res A
}.
Arguments mkResponse {A} status json.
Arguments status {A} r.
Arguments json {A} r.

(** [response.ok]: the status is in the range 200-299. *)
Definition ok {A} (r : Response A) : bool :=
  (200 <=? status r) && (status r <=? 299).

Record Env := mkEnv {
  (* document.getElementById(id) is not null *)
  has_element : string → bool;
  (* terminal.dispose() and resizeObserver.disconnect(), per handle *)
  dispose_outcome : nat → option Exn;
  disconnect_outcome : nat → option Exn;
  (* GET /api/tools, /api/categories, /api/sessions *)
  api_tools : FetchOutcome (list Tool);
  api_categories : FetchOutcome (list Category);
  api_sessions : FetchOutcome (list SessionInfo);
  (* POST /api/tool/<name> with the action in the body *)
  api_tool : string → string → FetchOutcome unit
}.

(** [await fetch(url, {method, body})] *)
Definition fetch {A} (method url body : string) (o : FetchOutcome A) : M (Response A) :=
  log (Fetch method url body);;
  match o with
  | Rejected e => throw e
  | Responded st js => mret (mkResponse st js)
  end.

(** [await response.json()] *)
Definition json_of {A} (r : Response A) : M A :=
  match json r with
  | Ok v => mret v
  | Throw e => throw e
  end.

Definition dquote : string := String (Ascii.ascii_of_nat 34) EmptyString.

(** [JSON.stringify({ action: a })] *)
Definition action_body (a : string) : string :=
  "{" +:+ dquote +:+ "action" +:+ dquote +:+ ":" +:+ dquote +:+ a +:+ dquote +:+ "}".

(** ** class TerminalManager *)

Module TerminalManager.

(** [this.terminals.set(sessionId, d)] *)
Definition registry_set (sessionId : string) (d : TerminalData) : M unit :=
  log (RegistrySet sessionId d);;
  modify (set_terminals (insert sessionId d)).

(** [this.terminals.delete(sessionId)] *)
Definition registry_delete (sessionId : string) : M unit :=
  log (RegistryDelete sessionId);;
  modify (set_terminals (delete sessionId)).

(** [this.terminals.get(sessionId)] *)
Definition registry_get (sessionId : string) : M (option TerminalData) :=
  gets (λ s, terminals s !! sessionId).

(** The listener given to [terminal.onData]. *)
Definition onData_listener (sessionId data : string) : M unit :=
  emit (terminal_input sessionId data).

(** The callback of the [ResizeObserver]; [rows] and [cols] are what
    the terminal reports after the fit. *)
Definition resize_listener (d : TerminalData) (sessionId : string) (rows cols : Z) : M unit :=
  log (Fit (fitAddon d));;
  emit (terminal_resize sessionId rows cols).

Definition createTerminal (env : Env) (sessionId containerId : string) : M nat :=
  terminal ← new_object NewTerminal;
  fitAddon ← new_object NewFitAddon;
  webLinksAddon ← new_object NewWebLinksAddon;
  log (LoadAddon terminal fitAddon);;
  log (LoadAddon terminal webLinksAddon);;
  (if has_element env containerId
   then mret tt
   else throw (JsError ("Container " +:+ containerId +:+ " not found")));;
  log (TerminalOpen terminal containerId);;
  log (Fit fitAddon);;
  log (OnData terminal sessionId);;
  resizeObserver ← new_object (λ h, NewResizeObserver h sessionId);
  log (Observe resizeObserver containerId);;
  registry_set sessionId (mkTerminalData terminal fitAddon resizeObserver);;
  emit (terminal_create sessionId);;
  mret terminal.

Definition closeTerminal (env : Env) (sessionId : string) : M unit :=
  terminalData ← registry_get sessionId;
  match terminalData with
  | Some d =>
      call (Dispose (terminal d)) (dispose_outcome env (terminal d));;
      call (Disconnect (resizeObserver d)) (disconnect_outcome env (resizeObserver d));;
      registry_delete sessionId;;
      emit (terminal_close sessionId)
  | None => mret tt
  end.

Definition write (sessionId data : string) : M unit :=
  terminalData ← registry_get sessionId;
  match terminalData with
  | Some d => log (TerminalWrite (terminal d) data)
  | None => mret tt
  end.

End TerminalManager.

(** ** The Vue application *)

(** [n + 1] on a JavaScript number holding a non-negative integer:
    exact below 2^53, where the sum rounds back to 2^53. *)
Definition js_incr (n : Z) : Z :=
  if n <? 2 ^ 53 then n + 1 else n.

(** [Array.prototype.findIndex] *)
Fixpoint findIndex {A} (p : A → bool) (l : list A) : option nat :=
  match l with
  | [] => None
  | x :: l' => if p x then Some 0%nat else S <$> findIndex p l'
  end.

Module App.

Definition showNotification (message type : string) : M unit :=
  i ← gets notificationId;
  modify (set_notificationId (js_incr i));;
  modify (λ s, set_notifications (notifications s ++ [mkNotification i message type]) s);;
  modify (λ s, set_timers (timers s ++ [(now s + 3000, i)]) s).

(** The callback given to [setTimeout] by [showNotification]. *)
Definition expire (i : Z) : M unit :=
  modify (λ s, set_notifications (filter (λ n, id n ≠ i) (notifications s)) s).

Definition console_error (what : string) : M unit := log (ConsoleError what).

Definition fetchData (env : Env) : M unit :=
  try_catch
    (try_catch
       (toolsResponse ← fetch "GET" "/api/tools" "" (api_tools env);
        if ok toolsResponse
        then v ← json_of toolsResponse; modify (set_tools v)
        else console_error "Error fetching tools:";; modify (set_tools []))
       (λ e, console_error "Error fetching tools:";; modify (set_tools []));;
     try_catch
       (categoriesResponse ← fetch "GET" "/api/categories" "" (api_categories env);
        if ok categoriesResponse
        then v ← json_of categoriesResponse; modify (set_categories v)
        else console_error "Error fetching categories:";; modify (set_categories []))
       (λ e, console_error "Error fetching categories:";; modify (set_categories []));;
     try_catch
       (sessionsResponse ← fetch "GET" "/api/sessions" "" (api_sessions env);
        if ok sessionsResponse
        then v ← json_of sessionsResponse; modify (set_sessions v)
        else console_error "Error fetching sessions:";; modify (set_sessions []))
       (λ e, console_error "Error fetching sessions:";; modify (set_sessions []));;
     modify (set_loading false))
    (λ error,
       console_error "General error in fetchData:";;
       showNotification "Some data could not be loaded" "warning";;
       modify (set_loading false)).

Definition toggleView (view : string) : M unit := modify (set_activeView view).

Definition push_activeTerminal (t : ActiveTerminal) : M unit :=
  modify (λ s, set_activeTerminals (activeTerminals s ++ [t]) s).

(** [this.$nextTick(callback)] *)
Definition nextTick (t : Tick) : M unit :=
  modify (λ s, set_ticks (ticks s ++ [t]) s).

Definition executeTool (toolName : string) : M unit :=
  try_catch
    (t ← gets now;
     let sessionId := "tool_" +:+ toolName +:+ "_" +:+ pretty t in
     let terminalId := "terminal-" +:+ sessionId in
     mode ← gets executionMode;
     push_activeTerminal
       (mkActiveTerminal sessionId (toolName +:+ " - " +:+ mode +:+ " mode") false);;
     modify (set_showToolModal false);;
     nextTick (ExecuteTick sessionId terminalId toolName))
    (λ error, showNotification ("Error executing tool: " +:+ exn_to_string error) "error").

Definition installTool (toolName : string) : M unit :=
  try_catch
    (t ← gets now;
     let sessionId := "install_" +:+ toolName +:+ "_" +:+ pretty t in
     let terminalId := "terminal-" +:+ sessionId in
     push_activeTerminal
       (mkActiveTerminal sessionId ("Installing " +:+ toolName) false);;
     nextTick (InstallTick sessionId terminalId toolName))
    (λ error, showNotification ("Error installing tool: " +:+ exn_to_string error) "error").

Definition removeTool (toolName : string) : M unit :=
  try_catch
    (t ← gets now;
     let sessionId := "remove_" +:+ toolName +:+ "_" +:+ pretty t in
     let terminalId := "terminal-" +:+ sessionId in
     push_activeTerminal
       (mkActiveTerminal sessionId ("Removing " +:+ toolName) false);;
     nextTick (RemoveTick sessionId terminalId toolName))
    (λ error, showNotification ("Error removing tool: " +:+ exn_to_string error) "error").

(** The body of an [async () => {...}] callback given to [$nextTick]. *)
Definition tick_body (env : Env) (t : Tick) : M unit :=
  match t with
  | ExecuteTick sessionId terminalId toolName =>
      TerminalManager.createTerminal env sessionId terminalId;;
      mode ← gets executionMode;
      emit (execute_tool toolName mode)
  | InstallTick sessionId terminalId toolName =>
      TerminalManager.createTerminal env sessionId terminalId;;
      response ← fetch "POST" ("/api/tool/" +:+ toolName) (action_body "install")
                   (api_tool env toolName "install");
      (if ok response then mret tt else throw (JsError "Installation failed"));;
      fetchData env
  | RemoveTick sessionId terminalId toolName =>
      TerminalManager.createTerminal env sessionId terminalId;;
      response ← fetch "POST" ("/api/tool/" +:+ toolName) (action_body "remove")
                   (api_tool env toolName "remove");
      (if ok response then mret tt else throw (JsError "Removal failed"));;
      fetchData env
  end.

Definition minimizeTerminal (sid : string) : M unit :=
  modify (λ s, set_activeTerminals
    (match findIndex (λ t, bool_decide (sessionId t = sid)) (activeTerminals s) with
     | Some i => alter (λ t, mkActiveTerminal (sessionId t) (title t) (negb (minimized t))) i
                   (activeTerminals s)
     | None => activeTerminals s
     end) s).

Definition closeTerminal (env : Env) (sid : string) : M unit :=
  TerminalManager.closeTerminal env sid;;
  index ← gets (λ s, findIndex (λ t, bool_decide (sessionId t = sid)) (activeTerminals s));
  match index with
  | Some i => modify (λ s, set_activeTerminals (delete i (activeTerminals s)) s)
  | None => mret tt
  end.

Definition closeModals : M unit :=
  modify (set_showToolModal false);;
  modify (set_showSessionModal false).

Definition getToolDetails (toolName : string) : M unit :=
  tool ← gets (λ s, find (λ t, bool_decide (tool_name t = toolName)) (tools s));
  match tool with
  | Some t => modify (set_selectedTool (Some t));; modify (set_showToolModal true)
  | None => mret tt
  end.

Definition getSessionDetails (sid : Z) : M unit :=
  session ← gets (λ s, find (λ x, bool_decide (session_id_of x = sid)) (sessions s));
  match session with
  | Some x => modify (set_selectedSession (Some x));; modify (set_showSessionModal true)
  | None => mret tt
  end.

Definition toggleExecutionMode : M unit :=
  modify (λ s, set_executionMode
    (if bool_decide (executionMode s = "direct") then "guided" else "direct") s).

(** The handlers registered by [initializeSocket]. *)
Definition on_connect : M unit := log (ConsoleLog "Connected to server").
Definition on_terminal_output (session_id output : string) : M unit :=
  TerminalManager.write session_id output.
Definition on_terminal_created (session_id : string) : M unit :=
  log (ConsoleLog ("Terminal created: " +:+ session_id)).
Definition on_terminal_closed (env : Env) (session_id : string) : M unit :=
  closeTerminal env session_id.
Definition on_terminal_error (error : string) : M unit :=
  showNotification error "error".

End App.

(** ** The event loop *)

(** What the loop may run next: a socket event from the backend, a user
    action on the page, the poll timer, a queued [$nextTick] callback, a
    terminal listener, or the clock moving on by [dt] milliseconds. *)
Inductive Action :=
| Connect
| TerminalOutput (session_id output : string)
| TerminalCreated (session_id : string)
| TerminalClosed (session_id : string)
| TerminalError (error : string)
| Poll
| ToggleView (view : string)
| ExecuteTool (toolName : string)
| InstallTool (toolName : string)
| RemoveTool (toolName : string)
| MinimizeTerminal (sessionId : string)
| CloseTerminal (sessionId : string)
| CloseModals
| GetToolDetails (toolName : string)
| GetSessionDetails (sessionId : Z)
| ToggleExecutionMode
| ShowNotification (message type : string)
| NextTick
| KeyInput (sessionId data : string)
| Resized (sessionId : string) (rows cols : Z)
| Advance (dt : Z).

(** The clock moves on by [dt]; the [setTimeout] callbacks that fall due
    run, oldest first. *)
Definition advance (dt : Z) : M unit := λ s,
  let t := now s + Z.max 0 dt in
  let fired := filter (λ p, p.1 ≤ t) (timers s) in
  let waiting := filter (λ p, ¬ p.1 ≤ t) (timers s) in
  (Ok tt, foldl (λ s' p, exec (App.expire p.2) s') (set_timers waiting (set_now t s)) fired).

Definition run_tick (env : Env) : M unit :=
  q ← gets ticks;
  match q with
  | [] => mret tt
  | t :: q' => modify (set_ticks q');; App.tick_body env t
  end.

Definition handle (env : Env) (a : Action) : M unit :=
  match a with
  | Connect => App.on_connect
  | TerminalOutput sid out => App.on_terminal_output sid out
  | TerminalCreated sid => App.on_terminal_created sid
  | TerminalClosed sid => App.on_terminal_closed env sid
  | TerminalError err => App.on_terminal_error err
  | Poll => App.fetchData env
  | ToggleView v => App.toggleView v
  | ExecuteTool t => App.executeTool t
  | InstallTool t => App.installTool t
  | RemoveTool t => App.removeTool t
  | MinimizeTerminal sid => App.minimizeTerminal sid
  | CloseTerminal sid => App.closeTerminal env sid
  | CloseModals => App.closeModals
  | GetToolDetails t => App.getToolDetails t
  | GetSessionDetails sid => App.getSessionDetails sid
  | ToggleExecutionMode => App.toggleExecutionMode
  | ShowNotification m t => App.showNotification m t
  | NextTick => run_tick env
  | KeyInput sid data =>
      d ← TerminalManager.registry_get sid;
      match d with
      | Some _ => TerminalManager.onData_listener sid data
      | None => mret tt
      end
  | Resized sid rows cols =>
      d ← TerminalManager.registry_get sid;
      match d with
      | Some d => TerminalManager.resize_listener d sid rows cols
      | None => mret tt
      end
  | Advance dt => advance dt
  end.

(** One turn of the loop.  An exception that leaves the handler, or the
    rejection of the promise an [async] handler returned, has nobody to
    catch it: it is reported as unhandled. *)
Definition step (env : Env) (a : Action) (s : State) : State :=
  match handle env a s with
  | (Ok _, s') => s'
  | (Throw e, s') => set_trace (trace s' ++ [Unhandled e]) s'
  end.

Definition run (l : list (Env * Action)) (s : State) : State :=
  foldl (λ s' ea, step ea.1 ea.2 s') s l.

(** States the application can be in: those reached from the initial
    state by turns of the loop. *)
Definition reachable (s : State) : Prop :=
  ∃ t0 l, s = run l (initial_state t0).

(** ** Reading the trace *)

(** The socket events in a trace, in order. *)
Definition outbound (tr : list Effect) : list SocketEvent :=
  omap (λ e, match e with Emit ev => Some ev | _ => None end) tr.

(** The part of the trace that [m] adds when run from [s]. *)
Definition effects_of {A} (m : M A) (s : State) : list Effect :=
  drop (length (trace s)) (trace (exec m s)).

(** Terminal handles in use by the registry. *)
Definition registered (s : State) (h : nat) : Prop :=
  ∃ sid d, terminals s !! sid = Some d ∧ terminal d = h.

(** Notification ids present. *)
Definition notification_ids (s : State) : list Z := id <$> notifications s.

(** An emulator that was constructed, was never disposed, and that the
    registry does not hold: nothing can dispose it any more. *)
Definition leaked (s : State) (h : nat) : Prop :=
  NewTerminal h ∈ trace s ∧ (Dispose h ∉ trace s) ∧ (¬ registered s h).

(** The registry obtained from [m0] by the registry mutations recorded
    in [effs], replayed in order. *)
Definition registry_after (m0 : gmap string TerminalData) (effs : list Effect) :
    gmap string TerminalData :=
  foldl (λ m e,
    match e with
    | RegistrySet sid d => <[sid:=d]> m
    | RegistryDelete sid => delete sid m
    | _ => m
    end) m0 effs.

(** What a successful [createTerminal] does, in order, when the next
    free handle is [h]. *)
Definition creation_effects (h : nat) (sid cid : string) : list Effect :=
  [NewTerminal h; NewFitAddon (S h); NewWebLinksAddon (S (S h));
   LoadAddon h (S h); LoadAddon h (S (S h));
   TerminalOpen h cid; Fit (S h); OnData h sid;
   NewResizeObserver (S (S (S h))) sid; Observe (S (S (S h))) cid;
   RegistrySet sid (mkTerminalData h (S h) (S (S (S h))));
   Emit (terminal_create sid)].

(** What [createTerminal] has done when the container lookup fails. *)
Definition construction_effects (h : nat) : list Effect :=
  [NewTerminal h; NewFitAddon (S h); NewWebLinksAddon (S (S h));
   LoadAddon h (S h); LoadAddon h (S (S h))].

(** [n] successive runs of the same call. *)
Fixpoint times (n : nat) (m : M unit) : M unit :=
  match n with
  | O => mret tt
  | S n' => m;; times n' m
  end.

(** ** Reading a poll *)

(** The fetch failed: the promise was rejected, or the status is not 2xx. *)
Definition fetch_failed {A} (o : FetchOutcome A) : bool :=
  match o with
  | Rejected _ => true
  | Responded st js => negb (ok (mkResponse st js))
  end.

(** The list a collection is left with after its fetch: the parsed body
    of a 2xx response, and the empty list in every other case. *)
Definition received {A} (o : FetchOutcome (list A)) : list A :=
  match o with
  | Rejected _ => []
  | Responded st (Throw _) => []
  | Responded st (Ok v) => if ok (mkResponse st (Ok v)) then v else []
  end.

(** The fetch gave a 2xx response whose body parsed. *)
Definition fetch_clean {A} (o : FetchOutcome A) : bool :=
  match o with
  | Rejected _ => false
  | Responded st (Throw _) => false
  | Responded st (Ok v) => ok (mkResponse st (Ok v))
  end.

(** What one of the three blocks of [fetchData] does to the outside. *)
Definition poll_effects {A} (url what : string) (o : FetchOutcome A) : list Effect :=
  Fetch "GET" url "" :: (if fetch_clean o then [] else [ConsoleError what]).

(** The requests in a trace, in order. *)
Definition requests (tr : list Effect) : list string :=
  omap (λ e, match e with Fetch _ url _ => Some url | _ => None end) tr.

(** The notifications of a given kind. *)
Definition of_kind (k : string) (l : list Notification) : list Notification :=
  filter (λ n, ntype n = k) l.

(** ** Invariants *)

(** [I] holds after [m] whenever it held before, whether [m] returns or
    throws. *)
Definition hoare {A} (I : State → Prop) (m : M A) : Prop :=
  ∀ s, I s → I (exec m s).

(** No handle in use is ahead of the allocation counter. *)
Definition handles_fresh (s : State) : Prop :=
  (∀ h, Dispose h ∈ trace s → (h < next_handle s)%nat) ∧
  (∀ sid d, terminals s !! sid = Some d → (terminal d < next_handle s)%nat).

(** The execution mode is one of the two the page knows. *)
Definition mode_ok (s : State) : Prop :=
  executionMode s = "guided" ∨ executionMode s = "direct".

(** The part of the state the notification sink and the mode toggle
    work on. *)
Definition core (s : State) : string * list Notification * Z * list (Z * Z) * Z :=
  (executionMode s, notifications s, notificationId s, timers s, now s).

(** Every pending removal is for an id that was already given out. *)
Definition timers_assigned (s : State) : Prop :=
  ∀ p, p ∈ timers s → p.2 < notificationId s.

(** The life of the notification with id [i] whose removal is due at
    [t]: before [t] it is present and its removal is pending; from [t]
    on it is absent and no removal for it is pending.  Its id is never
    given out again. *)
Definition lives_until (i t : Z) (s : State) : Prop :=
  i < notificationId s ∧
  ((now s < t ∧ i ∈ notification_ids s ∧ (t, i) ∈ timers s ∧
    (∀ p, p ∈ timers s → p.2 = i → p.1 = t)) ∨
   (t ≤ now s ∧ (i ∉ notification_ids s) ∧ (∀ p, p ∈ timers s → p.2 ≠ i))).

(** ** Sample worlds and states *)

(** A world where every container exists, nothing throws and every
    request returns 200 with an empty body. *)
Definition calm : Env :=
  mkEnv (λ _, true) (λ _, None) (λ _, None)
    (Responded 200 (Ok [])) (Responded 200 (Ok [])) (Responded 200 (Ok []))
    (λ _ _, Responded 200 (Ok tt)).

(** The application after [executeTool("nmap")] at clock reading 123 and
    the queued callback: session [tool_nmap_123] is registered. *)
Definition nmap_running : State :=
  run [(calm, ExecuteTool "nmap"); (calm, NextTick)] (initial_state 123).

(** [terminal.dispose()] throws. *)
Definition dispose_fails : Env :=
  mkEnv (λ _, true) (λ _, Some (JsError "dispose failed")) (λ _, None)
    (Responded 200 (Ok [])) (Responded 200 (Ok [])) (Responded 200 (Ok []))
    (λ _ _, Responded 200 (Ok tt)).

(** The page has no element for the terminal. *)
Definition no_container : Env :=
  mkEnv (λ _, false) (λ _, None) (λ _, None)
    (Responded 200 (Ok [])) (Responded 200 (Ok [])) (Responded 200 (Ok []))
    (λ _ _, Responded 200 (Ok tt)).

(** [/api/tools] is unreachable; the other two endpoints answer. *)
Definition tools_down : Env :=
  mkEnv (λ _, true) (λ _, None) (λ _, None)
    (Rejected (JsError "Failed to fetch"))
    (Responded 200 (Ok [mkCategory "recon"]))
    (Responded 200 (Ok [mkSessionInfo 1 true None]))
    (λ _ _, Responded 200 (Ok tt)).

(** [/api/sessions] answers 500; the other two endpoints answer. *)
Definition sessions_down : Env :=
  mkEnv (λ _, true) (λ _, None) (λ _, None)
    (Responded 200 (Ok [mkTool "nmap" true]))
    (Responded 200 (Ok [mkCategory "recon"]))
    (Responded 500 (Ok []))
    (λ _ _, Responded 200 (Ok tt)).

(** [POST /api/tool/<name>] answers 500. *)
Definition action_refused : Env :=
  mkEnv (λ _, true) (λ _, None) (λ _, None)
    (Responded 200 (Ok [])) (Responded 200 (Ok [])) (Responded 200 (Ok []))
    (λ _ _, Responded 500 (Ok tt)).

(** ** Computed properties *)

(** [Array.prototype.sort] with a comparator.  The language fixes the
    result, not the algorithm: the sort is stable, and for a comparator
    that orders the elements consistently every stable sort returns the
    same array.  It is written here as an insertion sort that puts an
    element before the first one it does not come after. *)
Fixpoint sort_insert {A} (cmp : A → A → Z) (x : A) (l : list A) : list A :=
  match l with
  | [] => [x]
  | y :: l' => if cmp x y <=? 0 then x :: y :: l' else y :: sort_insert cmp x l'
  end.

Definition js_sort {A} (cmp : A → A → Z) (l : list A) : list A :=
  foldr (sort_insert cmp) [] l.

Module Computed.

Definition installedToolsCount (s : State) : nat :=
  length (filter (λ t, tool_installed t = true) (tools s)).

Definition activeSessionsCount (s : State) : nat :=
  length (filter (λ x, session_active x = true) (sessions s)).

(** [s.history?.length || 0] *)
Definition history_length (x : SessionInfo) : nat :=
  from_option length 0%nat (session_history x).

Definition totalTasks (s : State) : nat :=
  foldl (λ acc x, (acc + history_length x)%nat) 0%nat (sessions s).

(** [localeCompare] is the platform's; it is a parameter. *)
Definition sortedTools (localeCompare : string → string → Z) (s : State) : list Tool :=
  js_sort (λ a b, localeCompare (tool_name a) (tool_name b)) (tools s).

Definition sortedSessions (s : State) : list SessionInfo :=
  js_sort (λ a b, session_id_of b - session_id_of a) (sessions s).

End Computed.

(** ** What a turn of the loop can touch *)

(** The turns that run [TerminalManager.createTerminal] or
    [TerminalManager.closeTerminal]. *)
Definition changes_registry (a : Action) : bool :=
  match a with
  | NextTick | CloseTerminal _ | TerminalClosed _ => true
  | _ => false
  end.

(** The turns that assign or mutate [activeTerminals]. *)
Definition changes_list (a : Action) : bool :=
  match a with
  | ExecuteTool _ | InstallTool _ | RemoveTool _ | MinimizeTerminal _
  | CloseTerminal _ | TerminalClosed _ => true
  | _ => false
  end.

(** The turns that reach a [socket.emit]. *)
Definition sends (a : Action) : bool :=
  match a with
  | NextTick | CloseTerminal _ | TerminalClosed _ | KeyInput _ _ | Resized _ _ _ => true
  | _ => false
  end.

(** The registry keeps its sessions apart: every handle it holds has
    been handed out, and no two sessions hold the same emulator, fit
    addon or observer. *)
Definition registry_wf (s : State) : Prop :=
  (∀ sid d, terminals s !! sid = Some d →
     (terminal d < next_handle s)%nat ∧ (fitAddon d < next_handle s)%nat ∧
     (resizeObserver d < next_handle s)%nat) ∧
  (∀ sid1 sid2 d1 d2,
     terminals s !! sid1 = Some d1 → terminals s !! sid2 = Some d2 →
     terminal d1 = terminal d2 ∨ fitAddon d1 = fitAddon d2 ∨
     resizeObserver d1 = resizeObserver d2 →
     sid1 = sid2).

(** Every notification on display has its removal pending, due within
    the next 3000 ms. *)
Definition all_expiring (s : State) : Prop :=
  ∀ n, n ∈ notifications s →
    ∃ t, (t, id n) ∈ timers s ∧ now s < t ≤ now s + 3000.

(** The session id [executeTool] makes for [tool] at clock reading [t]. *)
Definition tool_session_id (tool : string) (t : Z) : string :=
  "tool_" +:+ tool +:+ "_" +:+ pretty t.

(** The comparator orders consistently: any two elements are ordered
    one way or the other, and the order is transitive. *)
Definition consistent {A} (cmp : A → A → Z) : Prop :=
  (∀ a b, cmp a b ≤ 0 ∨ cmp b a ≤ 0) ∧
  (∀ a b c, cmp a b ≤ 0 → cmp b c ≤ 0 → cmp a c ≤ 0).

(** Two tools started five milliseconds apart: sessions [tool_nmap_123]
    and [tool_zap_128] are registered. *)
Definition two_sessions : State :=
  run [(calm, ExecuteTool "nmap"); (calm, NextTick); (calm, Advance 5);
       (calm, ExecuteTool "zap"); (calm, NextTick)] (initial_state 123).

(** The emulators disposed so far, in order. *)
Definition disposed (tr : list Effect) : list nat :=
  omap (λ e, match e with Dispose h => Some h | _ => None end) tr.

(** [terminal.dispose()] and [resizeObserver.disconnect()] return
    normally, whatever they are called on. *)
Definition teardown_returns (env : Env) : Prop :=
  ∀ h, dispose_outcome env h = None ∧ disconnect_outcome env h = None.

(** The registry keeps its sessions apart, and the emulators disposed
    so far were handed out, were disposed once, and are out of the
    registry. *)
Definition teardown_tidy (s : State) : Prop :=
  registry_wf s ∧
  (∀ h, h ∈ disposed (trace s) → (h < next_handle s)%nat) ∧
  NoDup (disposed (trace s)) ∧
  (∀ h, h ∈ disposed (trace s) → ¬ registered s h).

(** * Properties *)

(** Unfolds the operations of the monad. *)
Ltac unfold_m :=
  unfold effects_of, exec, result, call, emit, log, new_object, gets, modify,
    throw, try_catch, mbind, M_bind, mret, M_ret in *.

(** Projections and setters of the state, computed on a state that has
    been taken apart. *)
Ltac state_cbv :=
  cbv beta iota zeta delta
      [fst snd terminals activeView loading tools sessions categories showToolModal
       showSessionModal selectedTool selectedSession executionMode activeTerminals
       notifications notificationId trace next_handle now timers ticks
       set_terminals set_activeView set_loading set_tools set_sessions set_categories
       set_showToolModal set_showSessionModal set_selectedTool set_selectedSession
       set_executionMode set_activeTerminals set_notifications set_notificationId
       set_trace set_next_handle set_now set_timers set_ticks] in *.

Ltac take_apart s :=
  destruct s as [?tm ?av ?ld ?tl ?ss ?cs ?tmod ?smod ?st ?sse ?em ?ats ?ns ?nid ?tr
                 ?nh ?nw ?ti ?tk].

Ltac open_state s := take_apart s; state_cbv.

Section Hoare.
Context {A B : Type} (I : State → Prop).

Lemma hoare_ret (a : A) : hoare I (mret a).
Proof. by intros s. Qed.

Lemma hoare_throw (e : Exn) : hoare I (throw (A:=A) e).
Proof. by intros s. Qed.

Lemma hoare_gets (f : State → A) : hoare I (gets f).
Proof. by intros s. Qed.

Lemma hoare_modify (f : State → State) :
  (∀ s, I s → I (f s)) → hoare I (modify f).
Proof. intros H s Hs. by apply H. Qed.

Lemma hoare_bind (m : M A) (k : A → M B) :
  hoare I m → (∀ a, hoare I (k a)) → hoare I (m ≫= k).
Proof.
  intros Hm Hk s Hs. specialize (Hm s Hs). unfold_m.
  destruct (m s) as [[a|e] s1]; simpl in *; [by apply Hk | done].
Qed.

Lemma hoare_try_catch (m : M A) (h : Exn → M A) :
  hoare I m → (∀ e, hoare I (h e)) → hoare I (try_catch m h).
Proof.
  intros Hm Hh s Hs. specialize (Hm s Hs). unfold_m.
  destruct (m s) as [[a|e] s1]; simpl in *; [done | by apply Hh].
Qed.
End Hoare.

(** ** Lists *)

Lemma findIndex_first {A} (p : A → bool) (l1 : list A) (x : A) (l2 : list A) :
  Forall (λ y, p y = false) l1 → p x = true →
  findIndex p (l1 ++ x :: l2) = Some (length l1).
Proof.
  intros Hl1 Hx. induction Hl1 as [|y l1 Hy _ IH]; simpl.
  - by rewrite Hx.
  - by rewrite Hy, IH.
Qed.

Lemma findIndex_none {A} (p : A → bool) (l : list A) :
  Forall (λ y, p y = false) l → findIndex p l = None.
Proof.
  induction 1 as [|y l Hy _ IH]; simpl; [done|]. by rewrite Hy, IH.
Qed.

(** Membership in a list written out, possibly after a known prefix. *)
Ltac in_list :=
  rewrite ?elem_of_app, ?elem_of_cons, ?elem_of_nil; tauto.

Lemma new_effects_app (tr add : list Effect) :
  drop (length tr) (tr ++ add) = add.
Proof. by rewrite drop_app_length. Qed.

(** ** The registry: [closeTerminal] and [write] *)

Section Teardown.
Variable env : Env.

Lemma write_absent sid data s :
  terminals s !! sid = None → TerminalManager.write sid data s = (Ok tt, s).
Proof.
  intros H. unfold TerminalManager.write, TerminalManager.registry_get.
  unfold_m. by rewrite H.
Qed.

Lemma write_present sid data s d :
  terminals s !! sid = Some d →
  TerminalManager.write sid data s =
    (Ok tt, set_trace (trace s ++ [TerminalWrite (terminal d) data]) s).
Proof.
  intros H. unfold TerminalManager.write, TerminalManager.registry_get.
  unfold_m. by rewrite H.
Qed.

Lemma closeTerminal_absent sid s :
  terminals s !! sid = None → TerminalManager.closeTerminal env sid s = (Ok tt, s).
Proof.
  intros H. unfold TerminalManager.closeTerminal, TerminalManager.registry_get.
  unfold_m. by rewrite H.
Qed.

(** What [closeTerminal] does to a registered session, by what
    [dispose] and [disconnect] do. *)
Lemma closeTerminal_present sid s d :
  terminals s !! sid = Some d →
  TerminalManager.closeTerminal env sid s =
    match dispose_outcome env (terminal d) with
    | Some e => (Throw e, set_trace (trace s ++ [Dispose (terminal d)]) s)
    | None =>
        match disconnect_outcome env (resizeObserver d) with
        | Some e =>
            (Throw e,
             set_trace (trace s ++ [Dispose (terminal d); Disconnect (resizeObserver d)]) s)
        | None =>
            (Ok tt,
             set_terminals (delete sid)
               (set_trace (trace s ++ [Dispose (terminal d); Disconnect (resizeObserver d);
                                       RegistryDelete sid; Emit (terminal_close sid)]) s))
        end
    end.
Proof.
  intros H.
  unfold TerminalManager.closeTerminal, TerminalManager.registry_get,
    TerminalManager.registry_delete.
  unfold_m. rewrite H. simpl.
  destruct (dispose_outcome env (terminal d)); simpl; [done|].
  destruct (disconnect_outcome env (resizeObserver d)); take_apart s; simpl;
    by rewrite <- ?app_assoc.
Qed.

Lemma closeTerminal_clean sid s d :
  terminals s !! sid = Some d →
  dispose_outcome env (terminal d) = None →
  disconnect_outcome env (resizeObserver d) = None →
  TerminalManager.closeTerminal env sid s =
    (Ok tt,
     set_terminals (delete sid)
       (set_trace (trace s ++ [Dispose (terminal d); Disconnect (resizeObserver d);
                               RegistryDelete sid; Emit (terminal_close sid)]) s)).
Proof. intros H H1 H2. by rewrite (closeTerminal_present _ _ _ H), H1, H2. Qed.

(** After the first of [n] close calls the session is gone, and the
    others find nothing to do. *)
Lemma times_closeTerminal_absent n sid s :
  terminals s !! sid = None →
  times n (TerminalManager.closeTerminal env sid) s = (Ok tt, s).
Proof.
  intros H. induction n as [|n IH]; simpl; [done|].
  unfold mbind, M_bind. by rewrite closeTerminal_absent.
Qed.

Lemma times_closeTerminal_present n sid s d :
  terminals s !! sid = Some d →
  dispose_outcome env (terminal d) = None →
  disconnect_outcome env (resizeObserver d) = None →
  times (S n) (TerminalManager.closeTerminal env sid) s =
    TerminalManager.closeTerminal env sid s.
Proof.
  intros H H1 H2. simpl. unfold mbind, M_bind.
  rewrite (closeTerminal_clean _ _ _ H H1 H2).
  rewrite times_closeTerminal_absent; [done|]. take_apart s. simpl. apply lookup_delete_eq.
Qed.

End Teardown.

Section Closing.
Variable env : Env.

Lemma app_closeTerminal_clean sid s d :
  terminals s !! sid = Some d →
  dispose_outcome env (terminal d) = None →
  disconnect_outcome env (resizeObserver d) = None →
  App.closeTerminal env sid s =
    (Ok tt,
     let s' :=
       set_terminals (delete sid)
         (set_trace (trace s ++ [Dispose (terminal d); Disconnect (resizeObserver d);
                                 RegistryDelete sid; Emit (terminal_close sid)]) s) in
     match findIndex (λ t, bool_decide (sessionId t = sid)) (activeTerminals s) with
     | Some i => set_activeTerminals (delete i (activeTerminals s)) s'
     | None => s'
     end).
Proof.
  intros H H1 H2. unfold App.closeTerminal. unfold mbind at 1. unfold M_bind.
  rewrite (closeTerminal_clean _ _ _ _ H H1 H2). unfold_m. take_apart s. simpl.
  by destruct (findIndex _ _).
Qed.

End Closing.

(** ** The registry: [createTerminal] *)

Section Creation.
Variable env : Env.

Lemma createTerminal_found sid cid s :
  has_element env cid = true →
  TerminalManager.createTerminal env sid cid s =
    (Ok (next_handle s),
     set_terminals
       (insert sid (mkTerminalData (next_handle s) (S (next_handle s))
                      (S (S (S (next_handle s))))))
       (set_trace (trace s ++ creation_effects (next_handle s) sid cid)
          (set_next_handle (4 + next_handle s) s))).
Proof.
  intros H. take_apart s.
  unfold TerminalManager.createTerminal, TerminalManager.registry_set.
  unfold_m. rewrite H. state_cbv. unfold creation_effects.
  by rewrite <- ?app_assoc.
Qed.

Lemma createTerminal_missing sid cid s :
  has_element env cid = false →
  TerminalManager.createTerminal env sid cid s =
    (Throw (JsError ("Container " +:+ cid +:+ " not found")),
     set_trace (trace s ++ construction_effects (next_handle s))
       (set_next_handle (3 + next_handle s) s)).
Proof.
  intros H. take_apart s. unfold TerminalManager.createTerminal.
  unfold_m. rewrite H. state_cbv. unfold construction_effects.
  by rewrite <- ?app_assoc.
Qed.

Lemma execute_tick_found sid cid tool s :
  has_element env cid = true →
  App.tick_body env (ExecuteTick sid cid tool) s =
    (Ok tt,
     set_terminals
       (insert sid (mkTerminalData (next_handle s) (S (next_handle s))
                      (S (S (S (next_handle s))))))
       (set_trace (trace s ++ creation_effects (next_handle s) sid cid
                     ++ [Emit (execute_tool tool (executionMode s))])
          (set_next_handle (4 + next_handle s) s))).
Proof.
  intros H. unfold App.tick_body. unfold mbind at 1. unfold M_bind.
  rewrite (createTerminal_found _ _ _ H). unfold_m. open_state s.
  by rewrite <- ?app_assoc.
Qed.

Lemma execute_tick_missing sid cid tool s :
  has_element env cid = false →
  App.tick_body env (ExecuteTick sid cid tool) s =
    (Throw (JsError ("Container " +:+ cid +:+ " not found")),
     set_trace (trace s ++ construction_effects (next_handle s))
       (set_next_handle (3 + next_handle s) s)).
Proof.
  intros H. unfold App.tick_body. unfold mbind at 1. unfold M_bind.
  by rewrite (createTerminal_missing _ _ _ H).
Qed.

End Creation.

Lemma executeTool_queues tool s :
  App.executeTool tool s =
    (Ok tt,
     let sid := "tool_" +:+ tool +:+ "_" +:+ pretty (now s) in
     set_ticks (ticks s ++ [ExecuteTick sid ("terminal-" +:+ sid) tool])
       (set_showToolModal false
          (set_activeTerminals
             (activeTerminals s ++
                [mkActiveTerminal sid (tool +:+ " - " +:+ executionMode s +:+ " mode") false])
             s))).
Proof. by take_apart s. Qed.

(** Finds where a written-out list of effects splits as [pre ++ e :: post]:
    walks down [pre], dropping the positions where the heads differ. *)
Ltac split_at_emit pre H :=
  repeat (destruct pre as [|? pre]; simplify_eq/=).

Lemma elem_of_construction_effects e h :
  e ∈ construction_effects h →
  e = NewTerminal h ∨ e = NewFitAddon (S h) ∨ e = NewWebLinksAddon (S (S h)) ∨
  e = LoadAddon h (S h) ∨ e = LoadAddon h (S (S h)).
Proof.
  unfold construction_effects. rewrite !elem_of_cons, elem_of_nil. tauto.
Qed.

(** ** Polling: [fetchData] *)

Ltac case_outcome o :=
  destruct o as [? | ? [? | ?]];
  unfold ok; cbn [status json];
  try match goal with
      | |- context [(200 <=? ?st) && (?st <=? 299)] =>
          destruct ((200 <=? st) && (st <=? 299))
      end.

(** One of the three blocks of [fetchData]: it never throws, and leaves
    in its collection what the fetch delivered. *)
Lemma poll_block {A} (url what : string) (o : FetchOutcome (list A))
    (set : list A → State → State) (s : State) :
  try_catch
    (response ← fetch "GET" url "" o;
     if ok response
     then v ← json_of response; modify (set v)
     else App.console_error what;; modify (set []))
    (λ e, App.console_error what;; modify (set [])) s
  = (Ok tt, set (received o) (set_trace (trace s ++ poll_effects url what o) s)).
Proof.
  take_apart s.
  unfold App.console_error, fetch, json_of, poll_effects, received, fetch_clean.
  unfold_m. case_outcome o; state_cbv; by rewrite <- ?app_assoc.
Qed.

Lemma fetchData_eq (env : Env) (s : State) :
  App.fetchData env s =
    (Ok tt,
     set_loading false
       (set_sessions (received (api_sessions env))
          (set_categories (received (api_categories env))
             (set_tools (received (api_tools env))
                (set_trace
                   (trace s
                    ++ poll_effects "/api/tools" "Error fetching tools:" (api_tools env)
                    ++ poll_effects "/api/categories" "Error fetching categories:"
                         (api_categories env)
                    ++ poll_effects "/api/sessions" "Error fetching sessions:"
                         (api_sessions env)) s))))).
Proof.
  unfold App.fetchData.
  unfold try_catch at 1. unfold mbind at 1 2 3. unfold M_bind.
  rewrite (poll_block "/api/tools" "Error fetching tools:" (api_tools env) set_tools).
  rewrite (poll_block "/api/categories" "Error fetching categories:" (api_categories env)
             set_categories).
  rewrite (poll_block "/api/sessions" "Error fetching sessions:" (api_sessions env)
             set_sessions).
  unfold modify. take_apart s. state_cbv. by rewrite <- !app_assoc.
Qed.

(** The whole of a poll: it returns, each collection is what its own
    fetch delivered, and only the three collections, [loading] and the
    trace change. *)
Lemma fetchData_spec (env : Env) (s : State) :
  let s' := exec (App.fetchData env) s in
  result (App.fetchData env) s = Ok tt ∧
  tools s' = received (api_tools env) ∧
  categories s' = received (api_categories env) ∧
  sessions s' = received (api_sessions env) ∧
  loading s' = false ∧
  trace s' = trace s
    ++ poll_effects "/api/tools" "Error fetching tools:" (api_tools env)
    ++ poll_effects "/api/categories" "Error fetching categories:" (api_categories env)
    ++ poll_effects "/api/sessions" "Error fetching sessions:" (api_sessions env) ∧
  notifications s' = notifications s ∧
  notificationId s' = notificationId s ∧
  timers s' = timers s ∧
  terminals s' = terminals s ∧
  executionMode s' = executionMode s ∧
  activeTerminals s' = activeTerminals s ∧
  now s' = now s ∧
  ticks s' = ticks s ∧
  next_handle s' = next_handle s.
Proof.
  unfold exec, result. rewrite fetchData_eq. take_apart s. state_cbv.
  repeat split; reflexivity.
Qed.

Lemma failed_received {A} (o : FetchOutcome (list A)) :
  fetch_failed o = true → received o = [].
Proof.
  destruct o as [e | st [v | e]]; simpl; try done.
  intros H%negb_true_iff. by rewrite H.
Qed.

Lemma failed_not_clean {A} (o : FetchOutcome A) :
  fetch_failed o = true → fetch_clean o = false.
Proof.
  destruct o as [e | st [v | e]]; simpl; try done.
  by intros H%negb_true_iff.
Qed.

Lemma accepted_received {A} (st : Z) (v : list A) :
  200 ≤ st ≤ 299 → received (Responded st (Ok v)) = v.
Proof.
  intros [H1 H2]. unfold received, ok. simpl.
  apply Z.leb_le in H1. apply Z.leb_le in H2. by rewrite H1, H2.
Qed.

Lemma requests_poll_effects {A} url what (o : FetchOutcome A) :
  requests (poll_effects url what o) = [url].
Proof. unfold poll_effects. by destruct (fetch_clean o). Qed.

Lemma requests_app (l k : list Effect) : requests (l ++ k) = requests l ++ requests k.
Proof. unfold requests. apply omap_app. Qed.

Lemma fetchData_effects (env : Env) (s : State) :
  effects_of (App.fetchData env) s =
    poll_effects "/api/tools" "Error fetching tools:" (api_tools env)
    ++ poll_effects "/api/categories" "Error fetching categories:" (api_categories env)
    ++ poll_effects "/api/sessions" "Error fetching sessions:" (api_sessions env).
Proof.
  destruct (fetchData_spec env s) as (_ & _ & _ & _ & _ & Htr & _).
  unfold effects_of. rewrite Htr. apply new_effects_app.
Qed.

Lemma failed_logged {A} url what (o : FetchOutcome A) :
  fetch_failed o = true → ConsoleError what ∈ poll_effects url what o.
Proof.
  intros H. unfold poll_effects. rewrite (failed_not_clean _ H). in_list.
Qed.

(** ** Tool actions: [installTool] and [removeTool] *)

(** The part of [installTool] inside its [try] only queues the callback:
    it cannot throw, so the [catch] never runs. *)
Lemma installTool_queues tool s :
  App.installTool tool s =
    (Ok tt,
     let sid := "install_" +:+ tool +:+ "_" +:+ pretty (now s) in
     set_ticks (ticks s ++ [InstallTick sid ("terminal-" +:+ sid) tool])
       (set_activeTerminals
          (activeTerminals s ++ [mkActiveTerminal sid ("Installing " +:+ tool) false]) s)).
Proof. by take_apart s. Qed.

Lemma removeTool_queues tool s :
  App.removeTool tool s =
    (Ok tt,
     let sid := "remove_" +:+ tool +:+ "_" +:+ pretty (now s) in
     set_ticks (ticks s ++ [RemoveTick sid ("terminal-" +:+ sid) tool])
       (set_activeTerminals
          (activeTerminals s ++ [mkActiveTerminal sid ("Removing " +:+ tool) false]) s)).
Proof. by take_apart s. Qed.

(** A failed POST makes the queued callback throw, either the rejection
    of the fetch or the error made for a non-2xx answer; nothing in the
    callback catches, and no notification is raised. *)
Lemma install_tick_failed env sid cid tool s :
  has_element env cid = true →
  fetch_failed (api_tool env tool "install") = true →
  ∃ e s', App.tick_body env (InstallTick sid cid tool) s = (Throw e, s') ∧
          notifications s' = notifications s ∧
          (api_tool env tool "install" = Rejected e ∨ e = JsError "Installation failed").
Proof.
  intros Hc Hf. unfold App.tick_body.
  unfold mbind, M_bind. rewrite (createTerminal_found _ _ _ _ Hc).
  unfold fetch. unfold_m. take_apart s.
  destruct (api_tool env tool "install") as [e | code js]; simpl in *.
  - eauto 6.
  - apply negb_true_iff in Hf. unfold ok in *. simpl in *. rewrite Hf. eauto 6.
Qed.

Lemma remove_tick_failed env sid cid tool s :
  has_element env cid = true →
  fetch_failed (api_tool env tool "remove") = true →
  ∃ e s', App.tick_body env (RemoveTick sid cid tool) s = (Throw e, s') ∧
          notifications s' = notifications s ∧
          (api_tool env tool "remove" = Rejected e ∨ e = JsError "Removal failed").
Proof.
  intros Hc Hf. unfold App.tick_body.
  unfold mbind, M_bind. rewrite (createTerminal_found _ _ _ _ Hc).
  unfold fetch. unfold_m. take_apart s.
  destruct (api_tool env tool "remove") as [e | code js]; simpl in *.
  - eauto 6.
  - apply negb_true_iff in Hf. unfold ok in *. simpl in *. rewrite Hf. eauto 6.
Qed.

(** The loop runs the oldest queued callback. *)
Lemma run_tick_next env t q s :
  ticks s = t :: q → run_tick env s = App.tick_body env t (set_ticks q s).
Proof. intros H. unfold run_tick. unfold_m. by rewrite H. Qed.

(** A callback that throws leaves an unhandled rejection behind. *)
Lemma step_tick_throws env t q s e s' :
  ticks s = t :: q →
  App.tick_body env t (set_ticks q s) = (Throw e, s') →
  step env NextTick s = set_trace (trace s' ++ [Unhandled e]) s'.
Proof.
  intros Hq Ht. unfold step. cbn [handle]. by rewrite (run_tick_next _ _ _ _ Hq), Ht.
Qed.

(** ** Invariants of the event loop *)

Lemma hoare_new_object (I : State → Prop) (mk : nat → Effect) :
  (∀ s, I s →
     I (set_trace (trace s ++ [mk (next_handle s)]) (set_next_handle (S (next_handle s)) s))) →
  hoare I (new_object mk).
Proof. intros H s Hs. by apply H. Qed.

(** Solves [hoare I m] for a computation built from the primitives,
    given [leaf] for the calls that are proved apart and [fin] for the
    state updates. *)
Ltac hoare_go leaf fin :=
  repeat first
    [ leaf
    | match goal with
      | |- hoare _ (mret _) => apply hoare_ret
      | |- hoare _ (throw _) => apply hoare_throw
      | |- hoare _ (gets _) => apply hoare_gets
      | |- hoare _ (mbind _ _) => apply hoare_bind; [|intros ?]
      | |- hoare _ (try_catch _ _) => apply hoare_try_catch; [|intros ?]
      | |- hoare _ (modify _) => apply hoare_modify; fin
      | |- hoare _ (new_object _) => apply hoare_new_object; fin
      | |- hoare _ (match ?x with _ => _ end) => destruct x
      end
    | progress cbv zeta
    | progress unfold log, emit, call, fetch, json_of, App.console_error,
        App.push_activeTerminal, App.nextTick,
        TerminalManager.registry_get, TerminalManager.registry_set,
        TerminalManager.registry_delete, TerminalManager.onData_listener,
        TerminalManager.resize_listener ].

Ltac unfold_app :=
  unfold handle, run_tick, App.tick_body,
    App.on_connect, App.on_terminal_output, App.on_terminal_created,
    App.on_terminal_closed, App.on_terminal_error, App.fetchData, App.toggleView,
    App.executeTool, App.installTool, App.removeTool, App.minimizeTerminal,
    App.closeTerminal, App.closeModals, App.getToolDetails, App.getSessionDetails,
    TerminalManager.createTerminal, TerminalManager.closeTerminal, TerminalManager.write.

Section CoreInvariant.
Variable I : State → Prop.
Hypothesis I_core : ∀ s s', core s = core s' → I s → I s'.
Hypothesis I_toggle : hoare I App.toggleExecutionMode.
Hypothesis I_show : ∀ m k, hoare I (App.showNotification m k).
Hypothesis I_advance : ∀ dt, hoare I (advance dt).

Ltac core_leaf :=
  idtac;
  match goal with
  | |- hoare _ App.toggleExecutionMode => apply I_toggle
  | |- hoare _ (App.showNotification _ _) => apply I_show
  | |- hoare _ (advance _) => apply I_advance
  end.

Ltac core_fin :=
  idtac;
  let s := fresh "s" in let Hs := fresh "Hs" in
  intros s Hs; apply (I_core s); [by take_apart s | exact Hs].

Lemma handle_core_invariant env a : hoare I (handle env a).
Proof.
  destruct a; unfold_app; hoare_go core_leaf core_fin.
Qed.

Lemma step_core_invariant env a s : I s → I (step env a s).
Proof.
  intros Hs. unfold step.
  pose proof (handle_core_invariant env a s Hs) as H. unfold exec in H.
  destruct (handle env a s) as [[[]|e] s']; simpl in H; [done|].
  apply (I_core s'); [by take_apart s' | done].
Qed.

Lemma run_core_invariant l s : I s → I (run l s).
Proof.
  revert s. induction l as [|[env a] l IH]; intros s Hs; [done|].
  simpl. apply IH. by apply step_core_invariant.
Qed.

End CoreInvariant.

(** ** The clock *)

Lemma expire_all_spec (fired : list (Z * Z)) (s : State) :
  foldl (λ s' p, exec (App.expire p.2) s') s fired =
    set_notifications
      (foldl (λ ns p, filter (λ n, id n ≠ p.2) ns) (notifications s) fired) s.
Proof.
  revert s. induction fired as [|p fired IH]; intros s.
  - by take_apart s.
  - simpl. rewrite IH. by take_apart s.
Qed.

(** The clock moving on by [dt]: the removals due by then are taken off
    the timer list and applied to the notifications. *)
Lemma advance_spec (dt : Z) (s : State) :
  advance dt s =
    (Ok tt,
     let t := now s + Z.max 0 dt in
     set_notifications
       (foldl (λ ns p, filter (λ n, id n ≠ p.2) ns) (notifications s)
          (filter (λ p, p.1 ≤ t) (timers s)))
       (set_timers (filter (λ p, ¬ p.1 ≤ t) (timers s)) (set_now t s))).
Proof. unfold advance. rewrite expire_all_spec. by take_apart s. Qed.

Lemma elem_of_expired (i : Z) (fired : list (Z * Z)) (ns : list Notification) :
  i ∈ id <$> foldl (λ ns p, filter (λ n, id n ≠ p.2) ns) ns fired ↔
  i ∈ id <$> ns ∧ ∀ p, p ∈ fired → p.2 ≠ i.
Proof.
  revert ns. induction fired as [|p fired IH]; intros ns; simpl.
  - split; [intros H; split; [done|] | by intros [H _]].
    intros p Hp. by apply elem_of_nil in Hp.
  - rewrite IH. rewrite !list_elem_of_fmap. split.
    + intros [(n & -> & Hn) Hall]. apply list_elem_of_filter in Hn as [Hne Hn].
      split; [eauto|]. intros q [->|Hq]%elem_of_cons; [congruence | by apply Hall].
    + intros [(n & -> & Hn) Hall]. split.
      * exists n. split; [done|]. apply list_elem_of_filter. split; [|done].
        intros Heq. apply (Hall p); [left | done].
      * intros q Hq. apply Hall. by right.
Qed.

(** ** The execution mode *)

Lemma core_eq s s' :
  core s = core s' →
  executionMode s = executionMode s' ∧ notifications s = notifications s' ∧
  notificationId s = notificationId s' ∧ timers s = timers s' ∧ now s = now s'.
Proof. unfold core. by intros [= -> -> -> -> ->]. Qed.

Lemma toggle_mode s :
  executionMode (exec App.toggleExecutionMode s) =
    if bool_decide (executionMode s = "direct") then "guided" else "direct".
Proof. by take_apart s. Qed.

Lemma mode_ok_invariant l s : mode_ok s → mode_ok (run l s).
Proof.
  apply run_core_invariant.
  - intros s1 s2 Hc. unfold mode_ok. destruct (core_eq _ _ Hc) as (He & _).
    by rewrite He.
  - intros s1 Hs. unfold mode_ok. rewrite toggle_mode.
    case_bool_decide; [by left | by right].
  - intros m k s1 Hs. by take_apart s1.
  - intros dt s1 Hs. unfold exec. rewrite advance_spec. by take_apart s1.
Qed.

Lemma reachable_mode_ok s : reachable s → mode_ok s.
Proof.
  intros (t0 & l & ->). apply mode_ok_invariant. by left.
Qed.

(** ** Notifications *)

Lemma showNotification_spec m k s :
  App.showNotification m k s =
    (Ok tt,
     set_timers (timers s ++ [(now s + 3000, notificationId s)])
       (set_notifications (notifications s ++ [mkNotification (notificationId s) m k])
          (set_notificationId (js_incr (notificationId s)) s))).
Proof. by take_apart s. Qed.

Lemma showNotification_fields m k s :
  let s' := exec (App.showNotification m k) s in
  notifications s' = notifications s ++ [mkNotification (notificationId s) m k] ∧
  notificationId s' = js_incr (notificationId s) ∧
  timers s' = timers s ++ [(now s + 3000, notificationId s)] ∧
  now s' = now s.
Proof. by take_apart s. Qed.

Lemma advance_fields dt s :
  let s' := exec (advance dt) s in
  let t := now s + Z.max 0 dt in
  notifications s' =
    foldl (λ ns p, filter (λ n, id n ≠ p.2) ns) (notifications s)
      (filter (λ p, p.1 ≤ t) (timers s)) ∧
  notificationId s' = notificationId s ∧
  timers s' = filter (λ p, ¬ p.1 ≤ t) (timers s) ∧
  now s' = t.
Proof. unfold exec. rewrite advance_spec. by take_apart s. Qed.

Lemma js_incr_ge n : n ≤ js_incr n.
Proof. unfold js_incr. destruct (n <? 2 ^ 53); lia. Qed.

Lemma js_incr_exact n : n < 2 ^ 53 → js_incr n = n + 1.
Proof. intros H. unfold js_incr. apply Z.ltb_lt in H. by rewrite H. Qed.

(** The counter never goes down. *)
Lemma notificationId_monotone l s : notificationId s ≤ notificationId (run l s).
Proof.
  apply (run_core_invariant (λ s', notificationId s ≤ notificationId s')); [| | | |lia].
  - intros s1 s2 Hc. destruct (core_eq _ _ Hc) as (_ & _ & Hi & _). by rewrite Hi.
  - intros s1 Hs. by take_apart s1.
  - intros m k s1 Hs. destruct (showNotification_fields m k s1) as (_ & Hi & _).
    rewrite Hi. pose proof (js_incr_ge (notificationId s1)). lia.
  - intros dt s1 Hs. destruct (advance_fields dt s1) as (_ & Hi & _). by rewrite Hi.
Qed.

(** While the counter is in the exact range, every pending removal is
    for an id below it. *)
Lemma timers_assigned_invariant l s :
  (notificationId s < 2 ^ 53 → timers_assigned s) →
  notificationId (run l s) < 2 ^ 53 → timers_assigned (run l s).
Proof.
  apply (run_core_invariant (λ s', notificationId s' < 2 ^ 53 → timers_assigned s')).
  - intros s1 s2 Hc. destruct (core_eq _ _ Hc) as (_ & _ & Hi & Ht & _).
    unfold timers_assigned. by rewrite Hi, Ht.
  - intros s1 Hs. by take_apart s1.
  - intros m k s1 Hs. destruct (showNotification_fields m k s1) as (_ & Hi & Ht & _).
    unfold timers_assigned. rewrite Hi, Ht. intros Hlt.
    pose proof (js_incr_ge (notificationId s1)) as Hge.
    intros p [Hp|Hp]%elem_of_app.
    + assert (notificationId s1 < 2 ^ 53) as Hs1 by lia.
      specialize (Hs Hs1 p Hp). lia.
    + apply list_elem_of_singleton in Hp as ->. simpl.
      unfold js_incr in *. destruct (notificationId s1 <? 2 ^ 53) eqn:E; lia.
  - intros dt s1 Hs. destruct (advance_fields dt s1) as (_ & Hi & Ht & _).
    unfold timers_assigned. rewrite Hi, Ht.
    intros Hlt p Hp. apply list_elem_of_filter in Hp as [_ Hp]. by apply Hs.
Qed.

Lemma reachable_timers_assigned s :
  reachable s → notificationId s < 2 ^ 53 → timers_assigned s.
Proof.
  intros (t0 & l & ->). apply timers_assigned_invariant.
  intros _ p Hp. simpl in Hp. by apply elem_of_nil in Hp.
Qed.

Section Lifetime.
Variables i t : Z.

Lemma lives_until_show m k s :
  lives_until i t s → lives_until i t (exec (App.showNotification m k) s).
Proof.
  destruct (showNotification_fields m k s) as (Hn & Hi & Ht & Hw).
  unfold lives_until, notification_ids. rewrite Hn, Hi, Ht, Hw. intros [Hlt H].
  pose proof (js_incr_ge (notificationId s)) as Hge.
  split; [lia|]. rewrite fmap_app. simpl.
  destruct H as [(Hnow & Hin & Htm & Huniq) | (Hnow & Hout & Hnone)]; [left | right].
  - split_and!; [done | in_list | in_list |].
    intros p [Hp|Hp]%elem_of_app Hp2; [by apply Huniq|].
    apply list_elem_of_singleton in Hp as ->. simpl in Hp2. lia.
  - split_and!; [done | |].
    + intros [Hold|Hnew]%elem_of_app; [done|].
      apply list_elem_of_singleton in Hnew. lia.
    + intros p [Hp|Hp]%elem_of_app; [by apply Hnone|].
      apply list_elem_of_singleton in Hp as ->. simpl. lia.
Qed.

Lemma lives_until_advance dt s :
  lives_until i t s → lives_until i t (exec (advance dt) s).
Proof.
  destruct (advance_fields dt s) as (Hn & Hi & Ht & Hw). cbv zeta in *.
  unfold lives_until, notification_ids. rewrite Hn, Hi, Ht, Hw. intros [Hlt H].
  split; [done|]. rewrite !elem_of_expired.
  set (t' := now s + Z.max 0 dt).
  assert (now s ≤ t') as Hmono by lia.
  destruct H as [(Hnow & Hin & Htm & Huniq) | (Hnow & Hout & Hnone)].
  - destruct (decide (t ≤ t')) as [Hdue|Hwait]; [right | left].
    + split_and!; [done | |].
      * intros [_ Hall]. apply (Hall (t, i)); [|done].
        apply list_elem_of_filter. by split.
      * intros p [Hp1 Hp]%list_elem_of_filter Hp2. apply Hp1.
        by rewrite (Huniq p Hp Hp2).
    + split; [lia|]. split; [|split].
      * split; [done|]. intros p [Hp1 Hp]%list_elem_of_filter Hp2.
        apply Hwait. by rewrite <- (Huniq p Hp Hp2).
      * apply list_elem_of_filter. by split.
      * intros p [_ Hp]%list_elem_of_filter. by apply Huniq.
  - right. split_and!; [lia | |].
    + by intros [Hin _].
    + intros p [_ Hp]%list_elem_of_filter. by apply Hnone.
Qed.

(** Whatever the loop runs, the notification lives exactly until its
    removal is due. *)
Lemma lives_until_invariant l s : lives_until i t s → lives_until i t (run l s).
Proof.
  apply run_core_invariant.
  - intros s1 s2 Hc. destruct (core_eq _ _ Hc) as (_ & Hn & Hi & Ht & Hw).
    unfold lives_until, notification_ids. by rewrite Hn, Hi, Ht, Hw.
  - intros s1 Hs. by take_apart s1.
  - intros m k s1. apply lives_until_show.
  - intros dt s1. apply lives_until_advance.
Qed.

End Lifetime.

(** A fresh notification starts its life. *)
Lemma showNotification_starts m k s :
  notificationId s < 2 ^ 53 → timers_assigned s →
  lives_until (notificationId s) (now s + 3000) (exec (App.showNotification m k) s).
Proof.
  intros Hlt Htm. destruct (showNotification_fields m k s) as (Hn & Hi & Ht & Hw).
  unfold lives_until, notification_ids. rewrite Hn, Hi, Ht, Hw, (js_incr_exact _ Hlt).
  split; [lia|]. left. rewrite fmap_app. simpl.
  split_and!; [lia | in_list | in_list |].
  intros p [Hp|Hp]%elem_of_app Hp2.
  - specialize (Htm p Hp). lia.
  - by apply list_elem_of_singleton in Hp as ->.
Qed.

Lemma step_advance env dt s :
  step env (Advance dt) s = exec (advance dt) s.
Proof. unfold step, exec. cbn [handle]. by rewrite advance_spec. Qed.

Lemma now_advance dt s : now (exec (advance dt) s) = now s + Z.max 0 dt.
Proof. by destruct (advance_fields dt s) as (_ & _ & _ & Hw). Qed.

(** ** Handles *)

Lemma handles_fresh_weaken s s' :
  handles_fresh s →
  (next_handle s ≤ next_handle s')%nat →
  (∀ h, Dispose h ∈ trace s' → Dispose h ∈ trace s ∨ registered s h) →
  (∀ sid d, terminals s' !! sid = Some d →
            terminals s !! sid = Some d ∨ (terminal d < next_handle s')%nat) →
  handles_fresh s'.
Proof.
  intros [Hd Hr] Hle Htr Hreg. split.
  - intros h Hin. destruct (Htr h Hin) as [Hold | (sid & d & Hl & <-)].
    + specialize (Hd h Hold). lia.
    + specialize (Hr sid d Hl). lia.
  - intros sid d Hl. destruct (Hreg sid d Hl) as [Hold | Hnew]; [|done].
    specialize (Hr sid d Hold). lia.
Qed.

Lemma initial_handles_fresh t0 : handles_fresh (initial_state t0).
Proof.
  split.
  - intros h Hin. simpl in Hin. by apply elem_of_nil in Hin.
  - intros sid d Hl. simpl in Hl. by rewrite lookup_empty in Hl.
Qed.

Lemma handles_fresh_createTerminal env sid cid :
  hoare handles_fresh (TerminalManager.createTerminal env sid cid).
Proof.
  intros s Hs. unfold exec. destruct (has_element env cid) eqn:Hc.
  - rewrite (createTerminal_found _ _ _ _ Hc).
    apply (handles_fresh_weaken s); [exact Hs | ..]; clear Hs; take_apart s; state_cbv.
    + lia.
    + intros h [Hin|Hin]%elem_of_app; [by left|].
      unfold creation_effects in Hin. rewrite !elem_of_cons, elem_of_nil in Hin.
      by destruct Hin as [?|[?|[?|[?|[?|[?|[?|[?|[?|[?|[?|[?|?]]]]]]]]]]]].
    + intros sid' d. rewrite lookup_insert. case_decide; [|by left].
      intros [= <-]. right. simpl. lia.
  - rewrite (createTerminal_missing _ _ _ _ Hc).
    apply (handles_fresh_weaken s); [exact Hs | ..]; clear Hs; take_apart s; state_cbv.
    + lia.
    + intros h [Hin|Hin]%elem_of_app; [by left|].
      apply elem_of_construction_effects in Hin.
      by destruct Hin as [?|[?|[?|[?|?]]]].
    + intros. by left.
Qed.

Lemma handles_fresh_closeTerminal env sid :
  hoare handles_fresh (TerminalManager.closeTerminal env sid).
Proof.
  intros s Hs. unfold exec. destruct (terminals s !! sid) as [d|] eqn:Hl.
  - rewrite (closeTerminal_present _ _ _ _ Hl).
    assert (Hdis : ∀ h tail, (∀ e, e ∈ tail → e = Dispose h → h = terminal d) →
              Dispose h ∈ trace s ++ Dispose (terminal d) :: tail →
              Dispose h ∈ trace s ∨ registered s h).
    { intros h tail Htail [Hin|Hin]%elem_of_app; [by left|]. right. exists sid, d.
      split; [done|]. apply elem_of_cons in Hin as [[= ->]|Hin]; [done|].
      symmetry. by apply (Htail _ Hin). }
    destruct (dispose_outcome env (terminal d));
      [|destruct (disconnect_outcome env (resizeObserver d))];
      (apply (handles_fresh_weaken s); [exact Hs | ..]); clear Hs;
      take_apart s; state_cbv; try lia; try (intros; by left).
    + intros h. apply Hdis. intros x Hx. by apply elem_of_nil in Hx.
    + intros h. apply Hdis. intros x Hx ->. revert Hx.
      rewrite !elem_of_cons, elem_of_nil. by intros [?|?].
    + intros h. apply Hdis. intros x Hx ->. revert Hx.
      rewrite !elem_of_cons, elem_of_nil. by intros [?|[?|[?|?]]].
    + intros sid' d' Hl'. left. apply lookup_delete_Some in Hl'. tauto.
  - by rewrite (closeTerminal_absent _ _ _ Hl).
Qed.

Ltac fresh_leaf :=
  idtac;
  match goal with
  | |- hoare _ (TerminalManager.createTerminal _ _ _) => apply handles_fresh_createTerminal
  | |- hoare _ (TerminalManager.closeTerminal _ _) => apply handles_fresh_closeTerminal
  | |- hoare _ (advance _) =>
      let s := fresh "s" in let Hs := fresh "Hs" in
      intros s Hs; unfold exec; rewrite advance_spec; by take_apart s
  end.

Ltac fresh_fin :=
  idtac;
  let s := fresh "s" in let Hs := fresh "Hs" in
  intros s Hs; (apply (handles_fresh_weaken s); [exact Hs | ..]); clear Hs;
  take_apart s; state_cbv;
  [ lia
  | let h := fresh "h" in let Hin := fresh "Hin" in
    intros h Hin; left;
    first [ exact Hin
          | apply elem_of_app in Hin as [Hin|Hin];
            [exact Hin | apply list_elem_of_singleton in Hin; discriminate] ]
  | intros; by left ].

Lemma handle_handles_fresh env a : hoare handles_fresh (handle env a).
Proof.
  destruct a;
    unfold handle, run_tick, App.tick_body,
      App.on_connect, App.on_terminal_output, App.on_terminal_created,
      App.on_terminal_closed, App.on_terminal_error, App.fetchData, App.toggleView,
      App.executeTool, App.installTool, App.removeTool, App.minimizeTerminal,
      App.closeTerminal, App.closeModals, App.getToolDetails, App.getSessionDetails,
      App.toggleExecutionMode, App.showNotification, TerminalManager.write;
    hoare_go fresh_leaf fresh_fin.
Qed.

(** In every state the application can reach, the handles in use are
    behind the allocation counter. *)
Lemma reachable_handles_fresh s : reachable s → handles_fresh s.
Proof.
  intros (t0 & l & ->). generalize (initial_handles_fresh t0).
  generalize (initial_state t0). induction l as [|[env a] l IH]; intros s Hs; [done|].
  simpl. apply IH. unfold step.
  pose proof (handle_handles_fresh env a s Hs) as H. unfold exec in H.
  destruct (handle env a s) as [[[]|e] s']; simpl in H; [done|].
  (apply (handles_fresh_weaken s'); [exact H | ..]); clear H; take_apart s'; state_cbv.
  - lia.
  - intros h [Hin|Hin]%elem_of_app; [by left|].
    apply list_elem_of_singleton in Hin. discriminate.
  - intros. by left.
Qed.

(** * The gateway against its specification *)

(** C1, as the code has it.  When the backend emits [terminal_closed] for
    a registered session, and [dispose] and [disconnect] return, the
    registry entry is removed, the first entry of [activeTerminals] with
    that session id is removed, and exactly one event goes out in
    response: a [terminal_close] for that session. *)
Theorem terminal_closed_removes_and_announces (env : Env) (sid : string) (s : State)
    (d : TerminalData) :
  terminals s !! sid = Some d →
  dispose_outcome env (terminal d) = None →
  disconnect_outcome env (resizeObserver d) = None →
  let m := App.on_terminal_closed env sid in
  result m s = Ok tt ∧
  terminals (exec m s) = delete sid (terminals s) ∧
  terminals (exec m s) !! sid = None ∧
  (∀ l1 t l2,
     activeTerminals s = l1 ++ t :: l2 → sessionId t = sid →
     Forall (λ u, sessionId u ≠ sid) l1 →
     activeTerminals (exec m s) = l1 ++ l2) ∧
  (Forall (λ u, sessionId u ≠ sid) (activeTerminals s) →
     activeTerminals (exec m s) = activeTerminals s) ∧
  outbound (effects_of m s) = [terminal_close sid].
Proof.
  intros H H1 H2 m. subst m. unfold App.on_terminal_closed, effects_of, result, exec.
  rewrite (app_closeTerminal_clean _ _ _ _ H H1 H2). cbn [fst snd]. cbv zeta.
  set (p := λ t, bool_decide (sessionId t = sid)).
  assert (Hterm : ∀ s', terminals
            (match findIndex p (activeTerminals s) with
             | Some i => set_activeTerminals (delete i (activeTerminals s)) s'
             | None => s'
             end) = terminals s')
    by (intros s'; destruct (findIndex _ _); [take_apart s'|]; reflexivity).
  assert (Htr : ∀ s', trace
            (match findIndex p (activeTerminals s) with
             | Some i => set_activeTerminals (delete i (activeTerminals s)) s'
             | None => s'
             end) = trace s')
    by (intros s'; destruct (findIndex _ _); [take_apart s'|]; reflexivity).
  split_and!.
  - done.
  - rewrite Hterm. by take_apart s.
  - rewrite Hterm. open_state s. apply lookup_delete_eq.
  - intros l1 t l2 Hl Ht Hl1.
    rewrite Hl, (findIndex_first p l1 t l2).
    + open_state s. by rewrite delete_middle.
    + eapply Forall_impl; [exact Hl1|]. intros u Hu. by apply bool_decide_eq_false.
    + by apply bool_decide_eq_true.
  - intros Hall. rewrite (findIndex_none p); [by take_apart s|].
    eapply Forall_impl; [exact Hall|]. intros u Hu. by apply bool_decide_eq_false.
  - rewrite Htr. open_state s. by rewrite new_effects_app.
Qed.

Lemma terminal_closed_removes_and_announces_witness :
  terminals nmap_running !! "tool_nmap_123" = Some (mkTerminalData 0 1 3) ∧
  let m := App.on_terminal_closed calm "tool_nmap_123" in
  result m nmap_running = Ok tt ∧
  terminals (exec m nmap_running) !! "tool_nmap_123" = None ∧
  activeTerminals (exec m nmap_running) = [] ∧
  outbound (effects_of m nmap_running) = [terminal_close "tool_nmap_123"].
Proof.
  assert (H : terminals nmap_running !! "tool_nmap_123" = Some (mkTerminalData 0 1 3))
    by (vm_compute; reflexivity).
  split; [exact H|].
  destruct (terminal_closed_removes_and_announces calm "tool_nmap_123" nmap_running _ H
              eq_refl eq_refl) as (Hr & _ & Hgone & Hlist & _ & Hout).
  split_and!; [exact Hr | exact Hgone | | exact Hout].
  apply (Hlist [] (mkActiveTerminal "tool_nmap_123" "nmap - guided mode" false) []);
    [vm_compute; reflexivity | reflexivity | constructor].
Defined.

(** C1, as stated, fails: the handler answers the backend's
    [terminal_closed] with a [terminal_close] of its own. *)
Lemma terminal_closed_is_answered :
  let s' := step calm (TerminalClosed "tool_nmap_123") nmap_running in
  is_Some (terminals nmap_running !! "tool_nmap_123") ∧
  terminals s' !! "tool_nmap_123" = None ∧
  outbound (drop (length (trace nmap_running)) (trace s')) = [terminal_close "tool_nmap_123"] ∧
  outbound (drop (length (trace nmap_running)) (trace s')) ≠ [].
Proof.
  split_and!.
  - exists (mkTerminalData 0 1 3). vm_compute. reflexivity.
  - vm_compute. reflexivity.
  - vm_compute. reflexivity.
  - vm_compute. discriminate.
Qed.

(** C2, as the code has it.  For a registered session [closeTerminal]
    runs its steps in the order: dispose the emulator, disconnect the
    observer, remove the entry, emit [terminal_close].  All of them run
    when none throws; a step that throws ends the call there, the later
    steps do not run and the entry stays registered. *)
Theorem closeTerminal_steps_in_order (env : Env) (sid : string) (s : State)
    (d : TerminalData) :
  terminals s !! sid = Some d →
  let m := TerminalManager.closeTerminal env sid in
  effects_of m s =
    match dispose_outcome env (terminal d), disconnect_outcome env (resizeObserver d) with
    | Some _, _ => [Dispose (terminal d)]
    | None, Some _ => [Dispose (terminal d); Disconnect (resizeObserver d)]
    | None, None => [Dispose (terminal d); Disconnect (resizeObserver d);
                     RegistryDelete sid; Emit (terminal_close sid)]
    end ∧
  result m s =
    match dispose_outcome env (terminal d), disconnect_outcome env (resizeObserver d) with
    | Some e, _ => Throw e
    | None, Some e => Throw e
    | None, None => Ok tt
    end ∧
  terminals (exec m s) =
    match dispose_outcome env (terminal d), disconnect_outcome env (resizeObserver d) with
    | None, None => delete sid (terminals s)
    | _, _ => terminals s
    end.
Proof.
  intros H m. subst m. unfold effects_of, result, exec.
  rewrite (closeTerminal_present _ _ _ _ H).
  destruct (dispose_outcome env (terminal d)) as [e|];
    [|destruct (disconnect_outcome env (resizeObserver d)) as [e|]];
    open_state s; by rewrite new_effects_app.
Qed.

Lemma closeTerminal_steps_in_order_witness :
  terminals nmap_running !! "tool_nmap_123" = Some (mkTerminalData 0 1 3) ∧
  let m := TerminalManager.closeTerminal calm "tool_nmap_123" in
  effects_of m nmap_running =
    [Dispose 0; Disconnect 3; RegistryDelete "tool_nmap_123";
     Emit (terminal_close "tool_nmap_123")] ∧
  result m nmap_running = Ok tt.
Proof.
  assert (H : terminals nmap_running !! "tool_nmap_123" = Some (mkTerminalData 0 1 3))
    by (vm_compute; reflexivity).
  split; [exact H|].
  destruct (closeTerminal_steps_in_order calm "tool_nmap_123" nmap_running _ H)
    as (He & Hr & _).
  split; [exact He | exact Hr].
Defined.

(** C2, as stated, fails on both counts.  When [dispose] throws, the
    observer is not disconnected and the entry is not removed; when
    nothing throws, the emulator is disposed before the observer is
    disconnected. *)
Lemma dispose_failure_aborts_teardown :
  let m := TerminalManager.closeTerminal dispose_fails "tool_nmap_123" in
  terminals nmap_running !! "tool_nmap_123" = Some (mkTerminalData 0 1 3) ∧
  result m nmap_running = Throw (JsError "dispose failed") ∧
  effects_of m nmap_running = [Dispose 0] ∧
  (Disconnect 3 ∉ effects_of m nmap_running) ∧
  (RegistryDelete "tool_nmap_123" ∉ effects_of m nmap_running) ∧
  terminals (exec m nmap_running) !! "tool_nmap_123" = Some (mkTerminalData 0 1 3) ∧
  effects_of (TerminalManager.closeTerminal calm "tool_nmap_123") nmap_running !! 0%nat
    = Some (Dispose 0) ∧
  effects_of (TerminalManager.closeTerminal calm "tool_nmap_123") nmap_running !! 1%nat
    = Some (Disconnect 3).
Proof.
  assert (E : effects_of (TerminalManager.closeTerminal dispose_fails "tool_nmap_123")
                nmap_running = [Dispose 0]) by (vm_compute; reflexivity).
  cbv zeta. rewrite E.
  split_and!; try (vm_compute; reflexivity).
  - intros ?%list_elem_of_singleton. discriminate.
  - intros ?%list_elem_of_singleton. discriminate.
Qed.

(** C3, as the code has it.  In a poll where a collection's fetch fails
    (rejects or answers non-2xx), that collection becomes the empty
    list and the failure is written to the console by the handler of
    that fetch; the poll returns normally. *)
Theorem failed_fetch_empties_and_logs (env : Env) (s : State) :
  let s' := exec (App.fetchData env) s in
  let effs := effects_of (App.fetchData env) s in
  result (App.fetchData env) s = Ok tt ∧
  (fetch_failed (api_tools env) = true →
     tools s' = [] ∧ ConsoleError "Error fetching tools:" ∈ effs) ∧
  (fetch_failed (api_categories env) = true →
     categories s' = [] ∧ ConsoleError "Error fetching categories:" ∈ effs) ∧
  (fetch_failed (api_sessions env) = true →
     sessions s' = [] ∧ ConsoleError "Error fetching sessions:" ∈ effs).
Proof.
  intros s' effs. subst s' effs.
  destruct (fetchData_spec env s) as (Hr & Ht & Hc & Hs & _).
  rewrite fetchData_effects, Ht, Hc, Hs.
  split_and!; try done.
  - intros H. split; [by apply failed_received|].
    apply elem_of_app. left. by apply failed_logged.
  - intros H. split; [by apply failed_received|].
    apply elem_of_app. right. apply elem_of_app. left. by apply failed_logged.
  - intros H. split; [by apply failed_received|].
    apply elem_of_app. right. apply elem_of_app. right. by apply failed_logged.
Qed.

Lemma failed_fetch_empties_and_logs_witness :
  fetch_failed (api_tools tools_down) = true ∧
  let s' := exec (App.fetchData tools_down) (initial_state 0) in
  result (App.fetchData tools_down) (initial_state 0) = Ok tt ∧
  tools s' = [] ∧
  ConsoleError "Error fetching tools:" ∈ effects_of (App.fetchData tools_down) (initial_state 0).
Proof.
  split; [reflexivity|].
  destruct (failed_fetch_empties_and_logs tools_down (initial_state 0))
    as (Hr & Ht & _).
  destruct (Ht eq_refl) as [Hempty Hlog].
  split_and!; [exact Hr | exact Hempty | exact Hlog].
Defined.

(** C3, as stated, fails.  When [/api/tools] rejects, [tools] becomes
    empty and the other two collections are updated, but no notification
    is raised: there is no [warning] among the notifications. *)
Lemma failed_poll_raises_no_warning :
  let s' := step tools_down Poll (initial_state 0) in
  fetch_failed (api_tools tools_down) = true ∧
  tools s' = [] ∧
  categories s' = [mkCategory "recon"] ∧
  sessions s' = [mkSessionInfo 1 true None] ∧
  notifications s' = [] ∧
  length (of_kind "warning" (notifications s')) ≠ 1%nat.
Proof.
  cbv zeta. split_and!; try reflexivity. vm_compute. discriminate.
Qed.

(** C4 fails on the code.  When [installTool] or [removeTool] is called
    with no callback pending, the container exists and the POST fails
    (it is rejected or answered non-2xx), the failure is thrown inside
    the callback given to [$nextTick], outside the [try] of the method:
    it ends as an unhandled rejection and no notification is raised. *)
Theorem failed_action_is_not_notified (env : Env) (tool : string) (s : State) :
  ticks s = [] →
  (∀ cid, has_element env cid = true) →
  fetch_failed (api_tool env tool "install") = true →
  fetch_failed (api_tool env tool "remove") = true →
  let after a := run [(env, a); (env, NextTick)] s in
  notifications (step env (InstallTool tool) s) = notifications s ∧
  notifications (after (InstallTool tool)) = notifications s ∧
  (∃ e, last (trace (after (InstallTool tool))) = Some (Unhandled e) ∧
        (api_tool env tool "install" = Rejected e ∨ e = JsError "Installation failed")) ∧
  notifications (step env (RemoveTool tool) s) = notifications s ∧
  notifications (after (RemoveTool tool)) = notifications s ∧
  (∃ e, last (trace (after (RemoveTool tool))) = Some (Unhandled e) ∧
        (api_tool env tool "remove" = Rejected e ∨ e = JsError "Removal failed")).
Proof.
  intros Hq Hc Hi Hr after. subst after. unfold run. cbn [foldl fst snd].
  assert (Hstep_i : step env (InstallTool tool) s = exec (App.installTool tool) s)
    by (unfold step, exec; cbn [handle]; by rewrite installTool_queues).
  assert (Hstep_r : step env (RemoveTool tool) s = exec (App.removeTool tool) s)
    by (unfold step, exec; cbn [handle]; by rewrite removeTool_queues).
  rewrite Hstep_i, Hstep_r. unfold exec. rewrite installTool_queues, removeTool_queues.
  cbn [snd]. cbv zeta.
  set (si := "install_" +:+ tool +:+ "_" +:+ pretty (now s)).
  set (sr := "remove_" +:+ tool +:+ "_" +:+ pretty (now s)).
  set (s1 := set_ticks _ (set_activeTerminals (_ ++ [mkActiveTerminal si _ _]) s)).
  set (s2 := set_ticks _ (set_activeTerminals (_ ++ [mkActiveTerminal sr _ _]) s)).
  assert (H1 : ticks s1 = [InstallTick si ("terminal-" +:+ si) tool] ∧
               notifications s1 = notifications s)
    by (subst s1; rewrite Hq; by take_apart s).
  assert (H2 : ticks s2 = [RemoveTick sr ("terminal-" +:+ sr) tool] ∧
               notifications s2 = notifications s)
    by (subst s2; rewrite Hq; by take_apart s).
  destruct H1 as [Hq1 Hn1], H2 as [Hq2 Hn2].
  destruct (install_tick_failed env si ("terminal-" +:+ si) tool (set_ticks [] s1)
              (Hc _) Hi) as (e1 & s1' & Ht1 & Hn1' & He1).
  destruct (remove_tick_failed env sr ("terminal-" +:+ sr) tool (set_ticks [] s2)
              (Hc _) Hr) as (e2 & s2' & Ht2 & Hn2' & He2).
  rewrite (step_tick_throws _ _ _ _ _ _ Hq1 Ht1), (step_tick_throws _ _ _ _ _ _ Hq2 Ht2).
  assert (Hfin : ∀ e x, notifications (set_trace (trace x ++ [Unhandled e]) x)
                        = notifications x ∧
                        last (trace (set_trace (trace x ++ [Unhandled e]) x))
                        = Some (Unhandled e)).
  { intros e x. take_apart x. state_cbv. by rewrite last_snoc. }
  destruct (Hfin e1 s1') as [-> ->], (Hfin e2 s2') as [-> ->].
  assert (Hdrop : ∀ x, notifications (set_ticks [] x) = notifications x)
    by (intros x; by take_apart x).
  rewrite Hn1', Hn2', !Hdrop, Hn1, Hn2.
  split_and!; eauto.
Qed.

Lemma failed_action_is_not_notified_witness :
  ticks (initial_state 123) = [] ∧
  fetch_failed (api_tool action_refused "nmap" "install") = true ∧
  let after a := run [(action_refused, a); (action_refused, NextTick)] (initial_state 123) in
  notifications (after (InstallTool "nmap")) = [] ∧
  notifications (after (RemoveTool "nmap")) = [] ∧
  last (trace (after (InstallTool "nmap")))
    = Some (Unhandled (JsError "Installation failed")) ∧
  last (trace (after (RemoveTool "nmap")))
    = Some (Unhandled (JsError "Removal failed")).
Proof.
  split; [reflexivity|]. split; [reflexivity|].
  destruct (failed_action_is_not_notified action_refused "nmap" (initial_state 123)
              eq_refl (λ _, eq_refl) eq_refl eq_refl)
    as (_ & Hi & _ & _ & Hr & _).
  split_and!; [exact Hi | exact Hr | vm_compute; reflexivity | vm_compute; reflexivity].
Defined.

(** C5, as the code has it.  A [createTerminal] that fails because the
    container does not resolve leaves the registry unchanged, sends
    nothing and has not made an observer; the emulator it constructed
    before the lookup is not disposed and is not held by the registry.
    A destruction whose steps all return releases both the emulator and
    the observer of the session. *)
Theorem failed_create_keeps_registry_but_not_emulator (env : Env) (sid cid : string)
    (s : State) :
  reachable s →
  (has_element env cid = false →
     let m := TerminalManager.createTerminal env sid cid in
     let h := next_handle s in
     result m s = Throw (JsError ("Container " +:+ cid +:+ " not found")) ∧
     terminals (exec m s) = terminals s ∧
     outbound (effects_of m s) = [] ∧
     (∀ o sid', NewResizeObserver o sid' ∉ effects_of m s) ∧
     NewTerminal h ∈ effects_of m s ∧
     leaked (exec m s) h) ∧
  (∀ d,
     terminals s !! sid = Some d →
     dispose_outcome env (terminal d) = None →
     disconnect_outcome env (resizeObserver d) = None →
     let c := TerminalManager.closeTerminal env sid in
     result c s = Ok tt ∧
     Dispose (terminal d) ∈ effects_of c s ∧
     Disconnect (resizeObserver d) ∈ effects_of c s ∧
     terminals (exec c s) !! sid = None).
Proof.
  intros [Hdisp Hreg]%reachable_handles_fresh. split.
  - intros Hc m h. subst m h. unfold effects_of, result, exec.
    rewrite (createTerminal_missing _ _ _ _ Hc).
    open_state s.
    rewrite !new_effects_app.
    split_and!.
    + done.
    + done.
    + done.
    + intros o sid' Hin. apply elem_of_construction_effects in Hin.
      by destruct Hin as [?|[?|[?|[?|?]]]].
    + unfold construction_effects. in_list.
    + unfold leaked. state_cbv. split_and!.
      * unfold construction_effects. in_list.
      * intros [Hold|Hnew]%elem_of_app.
        -- apply Hdisp in Hold. lia.
        -- apply elem_of_construction_effects in Hnew.
           by destruct Hnew as [?|[?|[?|[?|?]]]].
      * unfold registered. state_cbv. intros (sid' & d & Hl & Hd).
        apply Hreg in Hl. lia.
  - intros d Hl H1 H2 c. subst c. unfold effects_of, result, exec.
    rewrite (closeTerminal_clean _ _ _ _ Hl H1 H2). open_state s.
    rewrite new_effects_app.
    split_and!; [done | in_list | in_list | apply lookup_delete_eq].
Qed.

Lemma failed_create_keeps_registry_but_not_emulator_witness :
  has_element no_container "terminal-tool_zap_200" = false ∧
  reachable nmap_running ∧
  let m := TerminalManager.createTerminal no_container "tool_zap_200"
             "terminal-tool_zap_200" in
  result m nmap_running = Throw (JsError "Container terminal-tool_zap_200 not found") ∧
  terminals (exec m nmap_running) = terminals nmap_running ∧
  leaked (exec m nmap_running) (next_handle nmap_running).
Proof.
  assert (Hr : reachable nmap_running)
    by (exists 123, [(calm, ExecuteTool "nmap"); (calm, NextTick)]; reflexivity).
  split; [reflexivity|]. split; [exact Hr|].
  destruct (failed_create_keeps_registry_but_not_emulator no_container "tool_zap_200"
              "terminal-tool_zap_200" nmap_running Hr) as [Hfail _].
  destruct (Hfail eq_refl) as (Hres & Hsame & _ & _ & _ & Hleak).
  split_and!; [exact Hres | exact Hsame | exact Hleak].
Defined.

(** C5, as stated, fails.  After a [createTerminal] that throws for a
    missing container, emulator 0 has been constructed, was not
    disposed, and no registry entry holds it. *)
Lemma missing_container_strands_emulator :
  let m := TerminalManager.createTerminal no_container "tool_nmap_123"
             "terminal-tool_nmap_123" in
  result m (initial_state 123) =
    Throw (JsError "Container terminal-tool_nmap_123 not found") ∧
  trace (exec m (initial_state 123)) =
    [NewTerminal 0; NewFitAddon 1; NewWebLinksAddon 2; LoadAddon 0 1; LoadAddon 0 2] ∧
  terminals (exec m (initial_state 123)) = ∅ ∧
  leaked (exec m (initial_state 123)) 0.
Proof.
  assert (Htr : trace (exec (TerminalManager.createTerminal no_container "tool_nmap_123"
                  "terminal-tool_nmap_123") (initial_state 123)) =
    [NewTerminal 0; NewFitAddon 1; NewWebLinksAddon 2; LoadAddon 0 1; LoadAddon 0 2])
    by reflexivity.
  assert (Hreg : terminals (exec (TerminalManager.createTerminal no_container "tool_nmap_123"
                  "terminal-tool_nmap_123") (initial_state 123)) = ∅) by reflexivity.
  cbv zeta. split_and!; [reflexivity | exact Htr | exact Hreg |].
  unfold leaked. rewrite Htr. split_and!.
  - in_list.
  - rewrite !elem_of_cons, elem_of_nil. by intros [?|[?|[?|[?|[?|?]]]]].
  - intros (sid & d & Hl & _). rewrite Hreg in Hl. by rewrite lookup_empty in Hl.
Qed.

(** C6.  Whenever [createTerminal] sends [terminal_create] for a session,
    the registry at that moment already holds the session; whenever the
    callback queued by [executeTool] sends [execute_tool], the registry
    at that moment holds the session it created.  When the container
    exists both events are sent, in that order after the registration;
    when it does not, neither is sent. *)
Theorem registered_before_announced (env : Env) (sid cid tool : string) (s : State) :
  let create := TerminalManager.createTerminal env sid cid in
  let tick := App.tick_body env (ExecuteTick sid cid tool) in
  (∀ pre post,
     effects_of create s = pre ++ Emit (terminal_create sid) :: post →
     is_Some (registry_after (terminals s) pre !! sid)) ∧
  (∀ pre post mode,
     effects_of tick s = pre ++ Emit (execute_tool tool mode) :: post →
     is_Some (registry_after (terminals s) pre !! sid)) ∧
  terminals (exec create s) = registry_after (terminals s) (effects_of create s) ∧
  terminals (exec tick s) = registry_after (terminals s) (effects_of tick s) ∧
  (has_element env cid = true →
     result create s = Ok (next_handle s) ∧
     is_Some (terminals (exec create s) !! sid) ∧
     outbound (effects_of create s) = [terminal_create sid] ∧
     result tick s = Ok tt ∧
     outbound (effects_of tick s) =
       [terminal_create sid; execute_tool tool (executionMode s)]) ∧
  (has_element env cid = false →
     outbound (effects_of create s) = [] ∧ outbound (effects_of tick s) = []) ∧
  (let sid' := "tool_" +:+ tool +:+ "_" +:+ pretty (now s) in
   ticks (exec (App.executeTool tool) s) =
     ticks s ++ [ExecuteTick sid' ("terminal-" +:+ sid') tool] ∧
   effects_of (App.executeTool tool) s = []).
Proof.
  intros create tick. subst create tick. unfold effects_of, result, exec.
  rewrite executeTool_queues.
  destruct (has_element env cid) eqn:Hc.
  - rewrite (createTerminal_found _ _ _ _ Hc), (execute_tick_found _ _ _ _ _ Hc).
    open_state s.
    rewrite !new_effects_app.
    split_and!.
    + intros pre post H. unfold creation_effects in H.
      split_at_emit pre H. rewrite lookup_insert_eq. eauto.
    + intros pre post mode H. unfold creation_effects in H. simpl in H.
      split_at_emit pre H. rewrite lookup_insert_eq. eauto.
    + reflexivity.
    + reflexivity.
    + intros _. split_and!; try reflexivity. rewrite lookup_insert_eq. eauto.
    + done.
    + done.
    + by rewrite drop_all.
  - rewrite (createTerminal_missing _ _ _ _ Hc), (execute_tick_missing _ _ _ _ _ Hc).
    open_state s.
    rewrite !new_effects_app.
    split_and!.
    + intros pre post H. unfold construction_effects in H. split_at_emit pre H.
    + intros pre post mode H. unfold construction_effects in H. split_at_emit pre H.
    + reflexivity.
    + reflexivity.
    + done.
    + intros _. split; reflexivity.
    + done.
    + by rewrite drop_all.
Qed.

Lemma registered_before_announced_witness :
  has_element calm "terminal-tool_nmap_123" = true ∧
  let s := exec (App.executeTool "nmap") (initial_state 123) in
  let tick := App.tick_body calm (ExecuteTick "tool_nmap_123" "terminal-tool_nmap_123" "nmap") in
  ticks s = [ExecuteTick "tool_nmap_123" "terminal-tool_nmap_123" "nmap"] ∧
  outbound (effects_of tick s) =
    [terminal_create "tool_nmap_123"; execute_tool "nmap" "guided"] ∧
  is_Some (registry_after (terminals s) (creation_effects 0 "tool_nmap_123" "terminal-tool_nmap_123")
           !! "tool_nmap_123").
Proof.
  split; [reflexivity|]. cbv zeta.
  destruct (registered_before_announced calm "tool_nmap_123" "terminal-tool_nmap_123" "nmap"
              (exec (App.executeTool "nmap") (initial_state 123)))
    as (_ & Hbefore & _ & _ & Hfound & _ & _).
  destruct (registered_before_announced calm "tool_nmap_123" "terminal-tool_nmap_123" "nmap"
              (initial_state 123)) as (_ & _ & _ & _ & _ & _ & Hq & _).
  destruct (Hfound eq_refl) as (_ & _ & _ & _ & Hout).
  split; [exact Hq|]. split; [exact Hout|].
  apply (Hbefore _ [] "guided"). vm_compute. reflexivity.
Defined.

(** C7.  A poll attempts the three fetches, in order, whatever each one
    answers; it returns; and each collection ends up with what its own
    fetch delivered: the body of a 2xx response, the empty list after a
    failure, independently of the other two. *)
Theorem poll_collections_independent (env : Env) (s : State) :
  let s' := exec (App.fetchData env) s in
  result (App.fetchData env) s = Ok tt ∧
  requests (effects_of (App.fetchData env) s)
    = ["/api/tools"; "/api/categories"; "/api/sessions"] ∧
  tools s' = received (api_tools env) ∧
  categories s' = received (api_categories env) ∧
  sessions s' = received (api_sessions env) ∧
  (fetch_failed (api_tools env) = true → tools s' = []) ∧
  (fetch_failed (api_categories env) = true → categories s' = []) ∧
  (fetch_failed (api_sessions env) = true → sessions s' = []) ∧
  (∀ st v, api_tools env = Responded st (Ok v) → 200 ≤ st ≤ 299 → tools s' = v) ∧
  (∀ st v, api_categories env = Responded st (Ok v) → 200 ≤ st ≤ 299 → categories s' = v) ∧
  (∀ st v, api_sessions env = Responded st (Ok v) → 200 ≤ st ≤ 299 → sessions s' = v).
Proof.
  intros s'. subst s'.
  destruct (fetchData_spec env s) as (Hr & Ht & Hc & Hs & _).
  rewrite fetchData_effects, !requests_app, !requests_poll_effects, Ht, Hc, Hs.
  split_and!; try done; try apply failed_received.
  - intros st v -> Hst. by apply accepted_received.
  - intros st v -> Hst. by apply accepted_received.
  - intros st v -> Hst. by apply accepted_received.
Qed.

Lemma poll_collections_independent_witness :
  fetch_failed (api_sessions sessions_down) = true ∧
  let s' := exec (App.fetchData sessions_down) (initial_state 0) in
  tools s' = [mkTool "nmap" true] ∧
  categories s' = [mkCategory "recon"] ∧
  sessions s' = [].
Proof.
  split; [reflexivity|].
  destruct (poll_collections_independent sessions_down (initial_state 0))
    as (_ & _ & _ & _ & _ & _ & _ & Hs & Ht & Hc & _).
  split_and!.
  - apply (Ht 200 _ eq_refl). lia.
  - apply (Hc 200 _ eq_refl). lia.
  - apply Hs. reflexivity.
Defined.

(** C8, as the code has it.  For a session id that is not registered,
    [write] and [closeTerminal] return without throwing and leave the
    whole state, the trace included, as it was, so nothing is sent; the
    handler of [terminal_output] drops the output.  For a registered
    session whose teardown does not throw, [n] successive close calls
    ([n] at least 1) return, leave the registry one entry smaller and
    send one [terminal_close].  When [dispose] or [disconnect] throws
    for it, the calls end in that exception, the registry is what it
    was, and no [terminal_close] is sent. *)
Theorem absent_session_noop_and_close_idempotent (env : Env) :
  (∀ s sid data,
     terminals s !! sid = None →
     TerminalManager.write sid data s = (Ok tt, s) ∧
     TerminalManager.closeTerminal env sid s = (Ok tt, s) ∧
     App.on_terminal_output sid data s = (Ok tt, s) ∧
     outbound (effects_of (TerminalManager.write sid data) s) = [] ∧
     outbound (effects_of (TerminalManager.closeTerminal env sid) s) = []) ∧
  (∀ s sid d n,
     terminals s !! sid = Some d →
     dispose_outcome env (terminal d) = None →
     disconnect_outcome env (resizeObserver d) = None →
     (0 < n)%nat →
     let m := times n (TerminalManager.closeTerminal env sid) in
     result m s = Ok tt ∧
     (size (terminals (exec m s)) + 1 = size (terminals s))%nat ∧
     terminals (exec m s) = delete sid (terminals s) ∧
     outbound (effects_of m s) = [terminal_close sid]) ∧
  (∀ s sid d n e,
     terminals s !! sid = Some d →
     dispose_outcome env (terminal d) = Some e ∨
     (dispose_outcome env (terminal d) = None ∧
      disconnect_outcome env (resizeObserver d) = Some e) →
     (0 < n)%nat →
     let m := times n (TerminalManager.closeTerminal env sid) in
     result m s = Throw e ∧
     terminals (exec m s) = terminals s ∧
     size (terminals (exec m s)) = size (terminals s) ∧
     outbound (effects_of m s) = []).
Proof.
  split_and!.
  - intros s sid data H.
    unfold App.on_terminal_output, effects_of, exec.
    rewrite (write_absent _ _ _ H), (closeTerminal_absent _ _ _ H). simpl.
    by rewrite drop_all.
  - intros s sid d n H H1 H2 Hn m. subst m.
    destruct n as [|n]; [lia|].
    unfold effects_of, result, exec.
    rewrite (times_closeTerminal_present _ _ _ _ _ H H1 H2).
    rewrite (closeTerminal_clean _ _ _ _ H H1 H2). open_state s.
    split_and!; [done | | done | by rewrite new_effects_app].
    rewrite map_size_delete, H.
    match goal with |- (Init.Nat.pred (size ?m) + 1 = _)%nat =>
      assert (size m ≠ 0%nat) as Hne; [|lia] end.
    intros Hz%map_size_empty_inv. rewrite Hz in H. by rewrite lookup_empty in H.
  - intros s sid d n e H Hthrows Hn m. subst m.
    destruct n as [|n]; [lia|].
    unfold effects_of, result, exec. cbn [times]. unfold mbind, M_bind.
    rewrite (closeTerminal_present _ _ _ _ H).
    destruct Hthrows as [-> | [-> ->]]; open_state s;
      by rewrite new_effects_app.
Qed.

Lemma absent_session_noop_and_close_idempotent_witness :
  (terminals nmap_running !! "tool_zap_9" = None ∧
   TerminalManager.write "tool_zap_9" "scan started" nmap_running = (Ok tt, nmap_running) ∧
   TerminalManager.closeTerminal calm "tool_zap_9" nmap_running = (Ok tt, nmap_running)) ∧
  (terminals nmap_running !! "tool_nmap_123" = Some (mkTerminalData 0 1 3) ∧
   (0 < 3)%nat ∧
   let m := times 3 (TerminalManager.closeTerminal calm "tool_nmap_123") in
   (size (terminals (exec m nmap_running)) + 1 = size (terminals nmap_running))%nat ∧
   outbound (effects_of m nmap_running) = [terminal_close "tool_nmap_123"]) ∧
  (dispose_outcome dispose_fails 0%nat = Some (JsError "dispose failed") ∧
   let m := times 3 (TerminalManager.closeTerminal dispose_fails "tool_nmap_123") in
   result m nmap_running = Throw (JsError "dispose failed") ∧
   size (terminals (exec m nmap_running)) = size (terminals nmap_running)).
Proof.
  assert (Ha : terminals nmap_running !! "tool_zap_9" = None) by (vm_compute; reflexivity).
  assert (Hp : terminals nmap_running !! "tool_nmap_123" = Some (mkTerminalData 0 1 3))
    by (vm_compute; reflexivity).
  assert (Hn : (0 < 3)%nat) by lia.
  destruct (absent_session_noop_and_close_idempotent calm) as (Habs & Hpres & _).
  destruct (absent_session_noop_and_close_idempotent dispose_fails) as (_ & _ & Hthrows).
  split_and!.
  - exact Ha.
  - exact (proj1 (Habs nmap_running "tool_zap_9" "scan started" Ha)).
  - exact (proj1 (proj2 (Habs nmap_running "tool_zap_9" "scan started" Ha))).
  - exact Hp.
  - exact Hn.
  - destruct (Hpres nmap_running "tool_nmap_123" _ 3%nat Hp eq_refl eq_refl Hn)
      as (_ & Hsize & _ & Hout).
    split; [exact Hsize | exact Hout].
  - reflexivity.
  - destruct (Hthrows nmap_running "tool_nmap_123" _ 3%nat (JsError "dispose failed") Hp
                (or_introl eq_refl) Hn) as (Hres & _ & Hsize & _).
    split; [exact Hres | exact Hsize].
Defined.

(** C8, as stated, fails in its second half.  When [dispose] throws, a
    close call for the registered session throws and leaves the entry
    where it was.  After three successive calls, made in one sequence
    or in three turns of the loop, the registry still has its one
    entry, and no [terminal_close] was sent. *)
Lemma throwing_dispose_keeps_registry_size :
  let m := times 3 (TerminalManager.closeTerminal dispose_fails "tool_nmap_123") in
  let s3 := run [(dispose_fails, CloseTerminal "tool_nmap_123");
                 (dispose_fails, CloseTerminal "tool_nmap_123");
                 (dispose_fails, CloseTerminal "tool_nmap_123")] nmap_running in
  terminals nmap_running !! "tool_nmap_123" = Some (mkTerminalData 0 1 3) ∧
  size (terminals nmap_running) = 1%nat ∧
  result m nmap_running = Throw (JsError "dispose failed") ∧
  size (terminals (exec m nmap_running)) = 1%nat ∧
  terminals (exec m nmap_running) !! "tool_nmap_123" = Some (mkTerminalData 0 1 3) ∧
  outbound (effects_of m nmap_running) = [] ∧
  size (terminals s3) = 1%nat ∧
  terminals s3 !! "tool_nmap_123" = Some (mkTerminalData 0 1 3) ∧
  outbound (trace s3) = outbound (trace nmap_running).
Proof. cbv zeta. split_and!; vm_compute; reflexivity. Qed.

(** C9.  A call of [showNotification], made in a state the application
    can reach and while the counter is in the range where JavaScript
    numbers count exactly, takes the counter as
    the id, moves the counter one up, appends the entry and schedules
    the removal of the entries with that id 3000 ms later.  Whatever
    the loop runs afterwards, any later call gets a strictly greater
    id, the notification is present as long as the clock is before
    [now + 3000] and absent once the clock has reached it; so it is
    present after 2999 ms and absent after 3001 ms.  The removal takes
    out the entries with that id and no others. *)
Theorem notification_ids_increase_and_expire (m k : string) (s : State)
    (l : list (Env * Action)) :
  reachable s →
  notificationId s < 2 ^ 53 →
  let i := notificationId s in
  let s1 := exec (App.showNotification m k) s in
  let s2 := run l s1 in
  result (App.showNotification m k) s = Ok tt ∧
  notifications s1 = notifications s ++ [mkNotification i m k] ∧
  notificationId s1 = i + 1 ∧
  timers s1 = timers s ++ [(now s + 3000, i)] ∧
  (∀ m' k',
     notifications (exec (App.showNotification m' k') s2)
       = notifications s2 ++ [mkNotification (notificationId s2) m' k'] ∧
     i < notificationId s2) ∧
  (now s2 < now s + 3000 → i ∈ notification_ids s2) ∧
  (now s + 3000 ≤ now s2 → i ∉ notification_ids s2) ∧
  (∀ env, i ∈ notification_ids (step env (Advance 2999) s1)) ∧
  (∀ env, i ∉ notification_ids (step env (Advance 3001) s1)) ∧
  (∀ s' n, n ∈ notifications (exec (App.expire i) s') ↔
           n ∈ notifications s' ∧ id n ≠ i).
Proof.
  intros Hr Hlt i s1 s2.
  pose proof (reachable_timers_assigned s Hr Hlt) as Htm.
  pose proof (showNotification_starts m k s Hlt Htm) as Hstart. fold i s1 in Hstart.
  destruct (showNotification_fields m k s) as (Hn & Hi & Ht & Hw).
  fold s1 i in Hn, Hi, Ht, Hw.
  assert (Hid : notificationId s1 = i + 1).
  { rewrite Hi. by apply js_incr_exact. }
  assert (Hlife : ∀ l', let s' := run l' s1 in
            (now s' < now s + 3000 → i ∈ notification_ids s') ∧
            (now s + 3000 ≤ now s' → i ∉ notification_ids s')).
  { intros l' s'. subst s'.
    destruct (lives_until_invariant i (now s + 3000) l' s1 Hstart) as [_ H].
    split; intros Hc; destruct H as [(? & ? & _) | (? & ? & _)]; (done || lia). }
  split_and!.
  - unfold result. by rewrite showNotification_spec.
  - exact Hn.
  - exact Hid.
  - exact Ht.
  - intros m' k'. split.
    + by destruct (showNotification_fields m' k' s2) as (Hn' & _).
    + pose proof (notificationId_monotone l s1) as Hmono. fold s2 in Hmono. lia.
  - apply (Hlife l).
  - apply (Hlife l).
  - intros env. apply (Hlife [(env, Advance 2999)]). simpl.
    rewrite step_advance, now_advance, Hw. lia.
  - intros env. apply (Hlife [(env, Advance 3001)]). simpl.
    rewrite step_advance, now_advance, Hw. lia.
  - intros s' n. assert (notifications (exec (App.expire i) s')
                         = filter (λ n, id n ≠ i) (notifications s')) as ->
      by (by take_apart s').
    rewrite list_elem_of_filter. tauto.
Qed.

Lemma notification_ids_increase_and_expire_witness :
  reachable (initial_state 1000) ∧
  notificationId (initial_state 1000) < 2 ^ 53 ∧
  let s1 := exec (App.showNotification "Tool installed" "success") (initial_state 1000) in
  notifications s1 = [mkNotification 0 "Tool installed" "success"] ∧
  timers s1 = [(4000, 0)] ∧
  0 ∈ notification_ids (step calm (Advance 2999) s1) ∧
  (0 ∉ notification_ids (step calm (Advance 3001) s1)) ∧
  0 < notificationId (run [(calm, Advance 3001); (calm, Poll)] s1).
Proof.
  assert (H1 : reachable (initial_state 1000)) by (exists 1000, []; reflexivity).
  assert (H2 : notificationId (initial_state 1000) < 2 ^ 53) by (simpl; lia).
  split; [exact H1|]. split; [exact H2|].
  destruct (notification_ids_increase_and_expire "Tool installed" "success"
              (initial_state 1000) [(calm, Advance 3001); (calm, Poll)] H1 H2)
    as (_ & Hn & _ & Ht & Hlater & _ & _ & Hpresent & Habsent & _).
  split_and!; [exact Hn | exact Ht | exact (Hpresent calm) | exact (Habsent calm) |].
  exact (proj2 (Hlater "x" "y")).
Defined.

(** C10.  The execution mode starts as [guided]; in every state the
    application can reach it is [guided] or [direct];
    [toggleExecutionMode] sends [direct] to [guided] and anything else to
    [direct]; applied twice from a reachable state it gives the mode
    back. *)
Theorem toggle_execution_mode_involution (s : State) :
  reachable s →
  (∀ t0, executionMode (initial_state t0) = "guided") ∧
  mode_ok s ∧
  (∀ s', result App.toggleExecutionMode s' = Ok tt) ∧
  (∀ s', executionMode s' = "direct" →
         executionMode (exec App.toggleExecutionMode s') = "guided") ∧
  (∀ s', executionMode s' ≠ "direct" →
         executionMode (exec App.toggleExecutionMode s') = "direct") ∧
  mode_ok (exec App.toggleExecutionMode s) ∧
  executionMode (exec App.toggleExecutionMode (exec App.toggleExecutionMode s))
    = executionMode s.
Proof.
  intros Hr. pose proof (reachable_mode_ok s Hr) as Hm.
  assert (Hd : ∀ s', executionMode s' = "direct" →
             executionMode (exec App.toggleExecutionMode s') = "guided").
  { intros s' H. by rewrite toggle_mode, H. }
  assert (Ho : ∀ s', executionMode s' ≠ "direct" →
             executionMode (exec App.toggleExecutionMode s') = "direct").
  { intros s' H. by rewrite toggle_mode, bool_decide_eq_false_2. }
  split_and!; try done.
  - destruct Hm as [H|H].
    + right. apply Ho. by rewrite H.
    + left. by apply Hd.
  - destruct Hm as [H|H].
    + rewrite Hd; [done|]. apply Ho. by rewrite H.
    + rewrite Ho; [done|]. rewrite (Hd _ H). done.
Qed.

Lemma toggle_execution_mode_involution_witness :
  reachable (run [(calm, ToggleExecutionMode)] (initial_state 0)) ∧
  let s := run [(calm, ToggleExecutionMode)] (initial_state 0) in
  executionMode s = "direct" ∧
  executionMode (exec App.toggleExecutionMode s) = "guided" ∧
  executionMode (exec App.toggleExecutionMode (exec App.toggleExecutionMode s))
    = executionMode s.
Proof.
  assert (Hr : reachable (run [(calm, ToggleExecutionMode)] (initial_state 0)))
    by (exists 0, [(calm, ToggleExecutionMode)]; reflexivity).
  split; [exact Hr|].
  destruct (toggle_execution_mode_involution _ Hr) as (_ & _ & _ & Hd & _ & _ & Hinv).
  split_and!; [reflexivity | apply Hd; reflexivity | exact Hinv].
Defined.

(** * Further properties *)

(** ** Turns of the loop *)

(** An invariant of every handler that does not look at the trace is an
    invariant of every turn. *)
Lemma step_hoare (I : State → Prop) env a :
  (∀ s e, I s → I (set_trace (trace s ++ [Unhandled e]) s)) →
  hoare I (handle env a) →
  ∀ s, I s → I (step env a s).
Proof.
  intros Htr Hh s Hs. unfold step. specialize (Hh s Hs). unfold exec in Hh.
  destruct (handle env a s) as [[[]|e] s']; simpl in Hh; [done|]. by apply Htr.
Qed.

Lemma run_hoare (I : State → Prop) :
  (∀ env a s, I s → I (step env a s)) → ∀ l s, I s → I (run l s).
Proof.
  intros Hstep l. induction l as [|[env a] l IH]; intros s Hs; [done|].
  simpl. apply IH. by apply Hstep.
Qed.

(** A handler that returns leaves the state it computed. *)
Lemma step_returns env a s s' :
  handle env a s = (Ok tt, s') → step env a s = s'.
Proof. intros H. unfold step. by rewrite H. Qed.

Lemma step_throws env a s e s' :
  handle env a s = (Throw e, s') →
  step env a s = set_trace (trace s' ++ [Unhandled e]) s'.
Proof. intros H. unfold step. by rewrite H. Qed.

Ltac unfold_handlers :=
  unfold handle, run_tick, App.tick_body,
    App.on_connect, App.on_terminal_output, App.on_terminal_created,
    App.on_terminal_closed, App.on_terminal_error, App.fetchData, App.toggleView,
    App.executeTool, App.installTool, App.removeTool, App.minimizeTerminal,
    App.closeTerminal, App.closeModals, App.getToolDetails, App.getSessionDetails,
    App.toggleExecutionMode, App.showNotification,
    TerminalManager.createTerminal, TerminalManager.closeTerminal, TerminalManager.write.

(** For an invariant that reads one component of the state: the clock
    is proved apart, a state update either leaves the component or sets
    it to what the invariant asks. *)
Ltac frame_leaf :=
  idtac;
  match goal with
  | |- hoare _ (advance _) =>
      let s := fresh "s" in let Hs := fresh "Hs" in
      intros s Hs; unfold exec; rewrite advance_spec; take_apart s; exact Hs
  end.

Ltac frame_fin :=
  idtac;
  let s := fresh "s" in let Hs := fresh "Hs" in
  intros s Hs; take_apart s; state_cbv; first [exact Hs | reflexivity].

Lemma outbound_snoc tr e :
  outbound (tr ++ [e]) = outbound tr ++ match e with Emit ev => [ev] | _ => [] end.
Proof. unfold outbound. rewrite omap_app. by destruct e. Qed.

Ltac socket_fin :=
  idtac;
  let s := fresh "s" in let Hs := fresh "Hs" in
  intros s Hs; take_apart s; state_cbv;
  first [exact Hs | rewrite outbound_snoc, app_nil_r; exact Hs].

(** X1.  The registry changes only in the turns that create or close a
    terminal; the list of active terminals only in the turns of the
    actions that push, toggle or splice it. *)
Theorem registry_and_list_frame (env : Env) (a : Action) (s : State) :
  (changes_registry a = false → terminals (step env a s) = terminals s) ∧
  (changes_registry a = false → next_handle (step env a s) = next_handle s) ∧
  (changes_list a = false → activeTerminals (step env a s) = activeTerminals s).
Proof.
  split_and!; intros Ha.
  - apply (step_hoare (λ s', terminals s' = terminals s)); [| |done].
    + intros s' e Hs'. by take_apart s'.
    + destruct a; try discriminate; unfold_handlers; hoare_go frame_leaf frame_fin.
  - apply (step_hoare (λ s', next_handle s' = next_handle s)); [| |done].
    + intros s' e Hs'. by take_apart s'.
    + destruct a; try discriminate; unfold_handlers; hoare_go frame_leaf frame_fin.
  - apply (step_hoare (λ s', activeTerminals s' = activeTerminals s)); [| |done].
    + intros s' e Hs'. by take_apart s'.
    + destruct a; try discriminate; unfold_handlers; hoare_go frame_leaf frame_fin.
Qed.

Lemma registry_and_list_frame_witness :
  changes_registry (TerminalError "backend down") = false ∧
  changes_list (TerminalError "backend down") = false ∧
  terminals (step calm (TerminalError "backend down") nmap_running)
    = terminals nmap_running ∧
  activeTerminals (step calm (TerminalError "backend down") nmap_running)
    = activeTerminals nmap_running.
Proof.
  destruct (registry_and_list_frame calm (TerminalError "backend down") nmap_running)
    as (Hr & _ & Hl).
  split_and!; [reflexivity | reflexivity | exact (Hr eq_refl) | exact (Hl eq_refl)].
Defined.

(** X2.  Nothing goes out on the socket in the turns of a poll, a backend
    output, acknowledgement or error, a notification, a timer or a view
    action; the three tool actions send nothing before their queued
    callback runs. *)
Theorem socket_frame (env : Env) (a : Action) (s : State) :
  sends a = false → outbound (trace (step env a s)) = outbound (trace s).
Proof.
  intros Ha.
  apply (step_hoare (λ s', outbound (trace s') = outbound (trace s))); [| |done].
  - intros s' e Hs'. take_apart s'. state_cbv. by rewrite outbound_snoc, app_nil_r.
  - destruct a; try discriminate; unfold_handlers; hoare_go frame_leaf socket_fin.
Qed.

Lemma socket_frame_witness :
  sends Poll = false ∧
  outbound (trace (step tools_down Poll nmap_running)) = outbound (trace nmap_running).
Proof.
  split; [reflexivity|]. exact (socket_frame tools_down Poll nmap_running eq_refl).
Defined.

(** ** Polling, further *)

Lemma step_poll env s : step env Poll s = exec (App.fetchData env) s.
Proof. unfold step, exec. cbn [handle]. by rewrite fetchData_eq. Qed.

(** X3.  A poll replaces the three collections and clears [loading]; it
    leaves the selection, the modals, the view, the terminals, the
    notifications and everything queued as they were.  So a tool or a
    session that is selected stays selected when the new snapshot no
    longer holds it. *)
Theorem poll_changes_only_collections (env : Env) (s : State) :
  let s' := step env Poll s in
  selectedTool s' = selectedTool s ∧
  selectedSession s' = selectedSession s ∧
  showToolModal s' = showToolModal s ∧
  showSessionModal s' = showSessionModal s ∧
  activeView s' = activeView s ∧
  executionMode s' = executionMode s ∧
  terminals s' = terminals s ∧
  activeTerminals s' = activeTerminals s ∧
  notifications s' = notifications s ∧
  notificationId s' = notificationId s ∧
  timers s' = timers s ∧
  ticks s' = ticks s ∧
  (∀ t, selectedTool s = Some t → fetch_failed (api_tools env) = true →
        selectedTool s' = Some t ∧ t ∉ tools s').
Proof.
  intros s'. subst s'. rewrite step_poll. unfold exec. rewrite fetchData_eq.
  split_and!; try (by take_apart s).
  intros t Ht Hf. rewrite (failed_received _ Hf). split; [by take_apart s|].
  take_apart s. state_cbv. apply not_elem_of_nil.
Qed.

Lemma poll_changes_only_collections_witness :
  let s := exec (App.getToolDetails "nmap") (step sessions_down Poll (initial_state 0)) in
  selectedTool s = Some (mkTool "nmap" true) ∧
  fetch_failed (api_tools tools_down) = true ∧
  selectedTool (step tools_down Poll s) = Some (mkTool "nmap" true) ∧
  mkTool "nmap" true ∉ tools (step tools_down Poll s).
Proof.
  assert (Hs : selectedTool (exec (App.getToolDetails "nmap")
                 (step sessions_down Poll (initial_state 0))) = Some (mkTool "nmap" true))
    by (vm_compute; reflexivity).
  cbv zeta. split; [exact Hs|]. split; [reflexivity|].
  destruct (poll_changes_only_collections tools_down
              (exec (App.getToolDetails "nmap") (step sessions_down Poll (initial_state 0))))
    as (_ & _ & _ & _ & _ & _ & _ & _ & _ & _ & _ & _ & Hstale).
  exact (Hstale _ Hs eq_refl).
Defined.

(** X4.  After a poll the view is out of its loading state, whatever the
    endpoints answered, and nothing the loop runs puts it back. *)
Theorem loading_ends_and_stays_off (env : Env) (l : list (Env * Action)) (s : State) :
  loading (step env Poll s) = false ∧
  (loading s = false → loading (run l s) = false).
Proof.
  split.
  - rewrite step_poll. unfold exec. rewrite fetchData_eq. by take_apart s.
  - revert s. apply (run_hoare (λ s', loading s' = false)).
    intros env' a s' Hs'. apply (step_hoare (λ s', loading s' = false)); [| |done].
    + intros s0 e Hs0. by take_apart s0.
    + destruct a; unfold_handlers; hoare_go frame_leaf frame_fin.
Qed.

Lemma loading_ends_and_stays_off_witness :
  loading (step tools_down Poll (initial_state 0)) = false ∧
  loading (run [(calm, ExecuteTool "nmap"); (no_container, NextTick); (tools_down, Poll)]
             (step tools_down Poll (initial_state 0))) = false.
Proof.
  destruct (loading_ends_and_stays_off tools_down
              [(calm, ExecuteTool "nmap"); (no_container, NextTick); (tools_down, Poll)]
              (initial_state 0)) as [H1 _].
  split; [exact H1|].
  destruct (loading_ends_and_stays_off tools_down
              [(calm, ExecuteTool "nmap"); (no_container, NextTick); (tools_down, Poll)]
              (step tools_down Poll (initial_state 0))) as [_ H2].
  exact (H2 H1).
Defined.

(** ** Sessions are kept apart *)

Lemma registry_wf_createTerminal env sid cid :
  hoare registry_wf (TerminalManager.createTerminal env sid cid).
Proof.
  intros s [Hlt Hinj]. unfold exec. destruct (has_element env cid) eqn:Hc.
  - rewrite (createTerminal_found _ _ _ _ Hc). unfold registry_wf in *.
    take_apart s. state_cbv. split.
    + intros sid' d. rewrite lookup_insert. case_decide.
      * intros [= <-]. simpl. lia.
      * intros Hl. specialize (Hlt _ _ Hl). lia.
    + intros sid1 sid2 d1 d2. rewrite !lookup_insert.
      repeat case_decide; intros H1 H2 Heq; simplify_eq; try done.
      * specialize (Hlt _ _ H2). simpl in Heq. lia.
      * specialize (Hlt _ _ H1). simpl in Heq. lia.
      * by apply (Hinj _ _ _ _ H1 H2).
  - rewrite (createTerminal_missing _ _ _ _ Hc). unfold registry_wf in *.
    take_apart s. state_cbv. split.
    + intros sid' d Hl. specialize (Hlt _ _ Hl). lia.
    + exact Hinj.
Qed.

Lemma registry_wf_closeTerminal env sid :
  hoare registry_wf (TerminalManager.closeTerminal env sid).
Proof.
  intros s Hs. unfold exec. destruct (terminals s !! sid) as [d|] eqn:Hl.
  - rewrite (closeTerminal_present _ _ _ _ Hl).
    destruct (dispose_outcome env (terminal d));
      [|destruct (disconnect_outcome env (resizeObserver d))];
      unfold registry_wf in *; take_apart s; state_cbv; try exact Hs.
    destruct Hs as [Hlt Hinj]. split.
    + intros sid' d' [_ Hl']%lookup_delete_Some. by apply (Hlt sid').
    + intros sid1 sid2 d1 d2 [_ H1]%lookup_delete_Some [_ H2]%lookup_delete_Some.
      by apply Hinj.
  - by rewrite (closeTerminal_absent _ _ _ Hl).
Qed.

Ltac wf_leaf :=
  idtac;
  match goal with
  | |- hoare _ (TerminalManager.createTerminal _ _ _) => apply registry_wf_createTerminal
  | |- hoare _ (TerminalManager.closeTerminal _ _) => apply registry_wf_closeTerminal
  | |- hoare _ (advance _) =>
      let s := fresh "s" in let Hs := fresh "Hs" in
      intros s Hs; unfold exec; rewrite advance_spec; take_apart s; exact Hs
  end.

Lemma registry_wf_step env a s : registry_wf s → registry_wf (step env a s).
Proof.
  apply step_hoare.
  - intros s' e Hs'. by take_apart s'.
  - destruct a;
      unfold handle, run_tick, App.tick_body,
        App.on_connect, App.on_terminal_output, App.on_terminal_created,
        App.on_terminal_closed, App.on_terminal_error, App.fetchData, App.toggleView,
        App.executeTool, App.installTool, App.removeTool, App.minimizeTerminal,
        App.closeTerminal, App.closeModals, App.getToolDetails, App.getSessionDetails,
        App.toggleExecutionMode, App.showNotification, TerminalManager.write;
      hoare_go wf_leaf frame_fin.
Qed.

Lemma reachable_registry_wf s : reachable s → registry_wf s.
Proof.
  intros (t0 & l & ->). apply (run_hoare registry_wf).
  - intros env a s. apply registry_wf_step.
  - split.
    + intros sid d Hl. simpl in Hl. by rewrite lookup_empty in Hl.
    + intros sid1 sid2 d1 d2 Hl. simpl in Hl. by rewrite lookup_empty in Hl.
Qed.

(** X5.  In every state the application can reach, an emulator, a fit addon
    or an observer belongs to one session only: two different registered
    sessions hold different handles. *)
Theorem emulator_never_shared (s : State) (sid1 sid2 : string) (d1 d2 : TerminalData) :
  reachable s →
  terminals s !! sid1 = Some d1 →
  terminals s !! sid2 = Some d2 →
  sid1 ≠ sid2 →
  terminal d1 ≠ terminal d2 ∧ fitAddon d1 ≠ fitAddon d2 ∧
  resizeObserver d1 ≠ resizeObserver d2.
Proof.
  intros [_ Hinj]%reachable_registry_wf H1 H2 Hne.
  split_and!; intros Heq; apply Hne; apply (Hinj _ _ _ _ H1 H2); tauto.
Qed.

Lemma two_sessions_reachable : reachable two_sessions.
Proof. by eexists _, _. Qed.

Lemma emulator_never_shared_witness :
  reachable two_sessions ∧
  terminals two_sessions !! "tool_nmap_123" = Some (mkTerminalData 0 1 3) ∧
  terminals two_sessions !! "tool_zap_128" = Some (mkTerminalData 4 5 7) ∧
  "tool_nmap_123" ≠ "tool_zap_128" ∧
  terminal (mkTerminalData 0 1 3) ≠ terminal (mkTerminalData 4 5 7).
Proof.
  assert (H1 : terminals two_sessions !! "tool_nmap_123" = Some (mkTerminalData 0 1 3))
    by (vm_compute; reflexivity).
  assert (H2 : terminals two_sessions !! "tool_zap_128" = Some (mkTerminalData 4 5 7))
    by (vm_compute; reflexivity).
  assert (Hne : "tool_nmap_123" ≠ "tool_zap_128") by discriminate.
  split_and!; [exact two_sessions_reachable | exact H1 | exact H2 | exact Hne |].
  exact (proj1 (emulator_never_shared two_sessions _ _ _ _ two_sessions_reachable
                  H1 H2 Hne)).
Defined.

(** X6.  Output from the backend for a registered session is written, as it
    came, to the emulator of that session and to nothing else: the turn
    makes that one call, and no other session holds that emulator. *)
Theorem output_reaches_its_session_only (env : Env) (s : State) (sid data : string)
    (d : TerminalData) :
  reachable s →
  terminals s !! sid = Some d →
  step env (TerminalOutput sid data) s
    = set_trace (trace s ++ [TerminalWrite (terminal d) data]) s ∧
  effects_of (App.on_terminal_output sid data) s = [TerminalWrite (terminal d) data] ∧
  (∀ sid' d', terminals s !! sid' = Some d' → sid' ≠ sid → terminal d' ≠ terminal d).
Proof.
  intros Hr Hl. split_and!.
  - apply step_returns. cbn [handle]. unfold App.on_terminal_output.
    by rewrite (write_present _ _ _ _ Hl).
  - unfold effects_of, exec, App.on_terminal_output. rewrite (write_present _ _ _ _ Hl).
    take_apart s. state_cbv. by rewrite new_effects_app.
  - intros sid' d' Hl' Hne Heq. apply Hne.
    destruct (reachable_registry_wf _ Hr) as [_ Hinj].
    apply (Hinj _ _ _ _ Hl' Hl). by left.
Qed.

Lemma output_reaches_its_session_only_witness :
  reachable two_sessions ∧
  terminals two_sessions !! "tool_zap_128" = Some (mkTerminalData 4 5 7) ∧
  effects_of (App.on_terminal_output "tool_zap_128" "scan started") two_sessions
    = [TerminalWrite 4 "scan started"].
Proof.
  assert (H2 : terminals two_sessions !! "tool_zap_128" = Some (mkTerminalData 4 5 7))
    by (vm_compute; reflexivity).
  split_and!; [exact two_sessions_reachable | exact H2 |].
  exact (proj1 (proj2 (output_reaches_its_session_only calm two_sessions "tool_zap_128"
                         "scan started" _ two_sessions_reachable H2))).
Defined.

(** X7.  Creating a session under an id that is already registered replaces
    the entry: the registry keeps its size, the id now names the new
    emulator, and the emulator and the observer it named before are
    neither disposed nor disconnected, and no entry holds that emulator
    any more. *)
Theorem recreate_replaces_and_strands (env : Env) (sid cid : string) (s : State)
    (old : TerminalData) :
  reachable s →
  terminals s !! sid = Some old →
  has_element env cid = true →
  let m := TerminalManager.createTerminal env sid cid in
  let h := next_handle s in
  result m s = Ok h ∧
  terminals (exec m s) = <[sid := mkTerminalData h (S h) (S (S (S h)))]> (terminals s) ∧
  size (terminals (exec m s)) = size (terminals s) ∧
  outbound (effects_of m s) = [terminal_create sid] ∧
  (Dispose (terminal old) ∉ effects_of m s) ∧
  (Disconnect (resizeObserver old) ∉ effects_of m s) ∧
  (¬ registered (exec m s) (terminal old)).
Proof.
  intros Hr Hl Hc m h. subst m h. destruct (reachable_registry_wf s Hr) as [Hlt Hinj].
  unfold effects_of, result, exec. rewrite (createTerminal_found _ _ _ _ Hc).
  unfold registered. open_state s. rewrite !new_effects_app.
  split_and!.
  - done.
  - done.
  - apply map_size_insert_Some. eauto.
  - done.
  - unfold creation_effects. rewrite !elem_of_cons, elem_of_nil.
    by intros [?|[?|[?|[?|[?|[?|[?|[?|[?|[?|[?|[?|?]]]]]]]]]]]].
  - unfold creation_effects. rewrite !elem_of_cons, elem_of_nil.
    by intros [?|[?|[?|[?|[?|[?|[?|[?|[?|[?|[?|[?|?]]]]]]]]]]]].
  - intros (sid' & d' & Hl' & Heq). rewrite lookup_insert in Hl'. case_decide.
    + simplify_eq. simpl in Heq. specialize (Hlt _ _ Hl). lia.
    + assert (sid' = sid) by (apply (Hinj _ _ _ _ Hl' Hl); tauto). congruence.
Qed.

Lemma recreate_replaces_and_strands_witness :
  reachable nmap_running ∧
  terminals nmap_running !! "tool_nmap_123" = Some (mkTerminalData 0 1 3) ∧
  has_element calm "terminal-tool_nmap_123" = true ∧
  let m := TerminalManager.createTerminal calm "tool_nmap_123" "terminal-tool_nmap_123" in
  result m nmap_running = Ok 4%nat ∧
  size (terminals (exec m nmap_running)) = size (terminals nmap_running) ∧
  (¬ registered (exec m nmap_running) 0).
Proof.
  assert (Hr : reachable nmap_running) by (by eexists _, _).
  assert (Hl : terminals nmap_running !! "tool_nmap_123" = Some (mkTerminalData 0 1 3))
    by (vm_compute; reflexivity).
  split_and!; [exact Hr | exact Hl | reflexivity |].
  destruct (recreate_replaces_and_strands calm "tool_nmap_123" "terminal-tool_nmap_123"
              nmap_running _ Hr Hl eq_refl) as (H1 & _ & H3 & _ & _ & _ & H7).
  split_and!; [exact H1 | exact H3 | exact H7].
Defined.

(** X8.  Creating a session under a free id and closing it again gives the
    registry back as it was: the emulator made is disposed, its observer
    disconnected, and the backend hears [terminal_create] and then
    [terminal_close]. *)
Theorem create_then_close_round_trip (env : Env) (sid cid : string) (s : State) :
  terminals s !! sid = None →
  has_element env cid = true →
  dispose_outcome env (next_handle s) = None →
  disconnect_outcome env (S (S (S (next_handle s)))) = None →
  let m := TerminalManager.createTerminal env sid cid;;
           TerminalManager.closeTerminal env sid in
  let h := next_handle s in
  result m s = Ok tt ∧
  terminals (exec m s) = terminals s ∧
  effects_of m s =
    creation_effects h sid cid ++
    [Dispose h; Disconnect (S (S (S h))); RegistryDelete sid; Emit (terminal_close sid)] ∧
  outbound (effects_of m s) = [terminal_create sid; terminal_close sid].
Proof.
  intros Hl Hc Hd1 Hd2 m h. subst m h.
  assert (E : (TerminalManager.createTerminal env sid cid;;
               TerminalManager.closeTerminal env sid) s =
              (Ok tt,
               set_terminals (delete sid)
                 (set_trace
                    ((trace s ++ creation_effects (next_handle s) sid cid) ++
                     [Dispose (next_handle s); Disconnect (S (S (S (next_handle s))));
                      RegistryDelete sid; Emit (terminal_close sid)])
                    (set_terminals
                       (insert sid (mkTerminalData (next_handle s) (S (next_handle s))
                                      (S (S (S (next_handle s))))))
                       (set_next_handle (4 + next_handle s) s))))).
  { unfold mbind, M_bind. rewrite (createTerminal_found _ _ _ _ Hc).
    rewrite (closeTerminal_clean env sid _
               (mkTerminalData (next_handle s) (S (next_handle s))
                  (S (S (S (next_handle s)))))).
    - by take_apart s.
    - take_apart s. state_cbv. apply lookup_insert_eq.
    - exact Hd1.
    - exact Hd2. }
  unfold effects_of, result, exec. rewrite E. open_state s.
  rewrite <- app_assoc, new_effects_app.
  split_and!; [done | by apply delete_insert_id | done | done].
Qed.

Lemma create_then_close_round_trip_witness :
  terminals nmap_running !! "tool_zap_200" = None ∧
  has_element calm "terminal-tool_zap_200" = true ∧
  let m := TerminalManager.createTerminal calm "tool_zap_200" "terminal-tool_zap_200";;
           TerminalManager.closeTerminal calm "tool_zap_200" in
  result m nmap_running = Ok tt ∧
  outbound (effects_of m nmap_running)
    = [terminal_create "tool_zap_200"; terminal_close "tool_zap_200"].
Proof.
  assert (Hl : terminals nmap_running !! "tool_zap_200" = None) by (vm_compute; reflexivity).
  split_and!; [exact Hl | reflexivity |].
  destruct (create_then_close_round_trip calm "tool_zap_200" "terminal-tool_zap_200"
              nmap_running Hl eq_refl eq_refl eq_refl) as (H1 & _ & _ & H4).
  split; [exact H1 | exact H4].
Defined.

(** ** The list of active terminals *)

Lemma findIndex_Some_split {A} (p : A → bool) (l : list A) (i : nat) :
  findIndex p l = Some i →
  ∃ l1 x l2, l = l1 ++ x :: l2 ∧ length l1 = i ∧ p x = true ∧
             Forall (λ y, p y = false) l1.
Proof.
  revert i. induction l as [|y l IH]; intros i; simpl; [done|].
  destruct (p y) eqn:Hy.
  - intros [= <-]. by exists [], y, l.
  - destruct (findIndex p l) as [j|]; [|done]. intros [= <-].
    destruct (IH j eq_refl) as (l1 & x & l2 & -> & <- & Hx & Hl1).
    exists (y :: l1), x, l2. split_and!; try done. by constructor.
Qed.

Lemma findIndex_None_Forall {A} (p : A → bool) (l : list A) :
  findIndex p l = None → Forall (λ y, p y = false) l.
Proof.
  induction l as [|y l IH]; simpl; [by constructor|].
  destruct (p y) eqn:Hy; [done|].
  destruct (findIndex p l); [done|]. intros _. constructor; [done|]. by apply IH.
Qed.

Lemma findIndex_alter {A} (p : A → bool) (f : A → A) (i : nat) (l : list A) :
  (∀ x, p (f x) = p x) → findIndex p (alter f i l) = findIndex p l.
Proof.
  intros Hf. unfold alter. revert i.
  induction l as [|y l IH]; intros [|i]; simpl; try done.
  - by rewrite Hf.
  - by rewrite IH.
Qed.

Section UserClose.
Variable env : Env.

Lemma app_closeTerminal_absent sid s :
  terminals s !! sid = None →
  App.closeTerminal env sid s =
    (Ok tt,
     match findIndex (λ t, bool_decide (sessionId t = sid)) (activeTerminals s) with
     | Some i => set_activeTerminals (delete i (activeTerminals s)) s
     | None => s
     end).
Proof.
  intros H. unfold App.closeTerminal. unfold mbind at 1. unfold M_bind.
  rewrite (closeTerminal_absent _ _ _ H). unfold_m.
  by destruct (findIndex _ _).
Qed.

End UserClose.

Lemma not_sid_false sid (l : list ActiveTerminal) :
  Forall (λ t, sessionId t ≠ sid) l ↔
  Forall (λ t, bool_decide (sessionId t = sid) = false) l.
Proof.
  split; intros H; (eapply Forall_impl; [exact H|]); intros t Ht; simpl in *.
  - by apply bool_decide_eq_false.
  - by apply bool_decide_eq_false in Ht.
Qed.

(** X9.  Closing, from the page, a terminal whose session is not registered
    (its creation failed, or the backend closed it already) still takes
    its entry off the list; the registry is untouched and nothing is
    sent.  With no entry either, the call changes nothing at all. *)
Theorem close_unregistered_removes_entry (env : Env) (sid : string) (s : State) :
  terminals s !! sid = None →
  let m := App.closeTerminal env sid in
  result m s = Ok tt ∧
  terminals (exec m s) = terminals s ∧
  trace (exec m s) = trace s ∧
  (∀ l1 t l2,
     activeTerminals s = l1 ++ t :: l2 → sessionId t = sid →
     Forall (λ u, sessionId u ≠ sid) l1 →
     activeTerminals (exec m s) = l1 ++ l2) ∧
  (Forall (λ u, sessionId u ≠ sid) (activeTerminals s) → exec m s = s).
Proof.
  intros H m. subst m. unfold result, exec. rewrite (app_closeTerminal_absent _ _ _ H).
  cbn [fst snd]. split_and!.
  - done.
  - destruct (findIndex _ _); [by take_apart s | done].
  - destruct (findIndex _ _); [by take_apart s | done].
  - intros l1 t l2 Hl Ht Hl1. rewrite Hl, (findIndex_first _ l1 t l2).
    + take_apart s. state_cbv. by rewrite delete_middle.
    + by apply not_sid_false.
    + by apply bool_decide_eq_true.
  - intros Hall. rewrite findIndex_none; [done|]. by apply not_sid_false.
Qed.

Lemma close_unregistered_removes_entry_witness :
  let s := run [(calm, ExecuteTool "nmap"); (no_container, NextTick)] (initial_state 123) in
  terminals s !! "tool_nmap_123" = None ∧
  activeTerminals s = [mkActiveTerminal "tool_nmap_123" "nmap - guided mode" false] ∧
  activeTerminals (exec (App.closeTerminal calm "tool_nmap_123") s) = [].
Proof.
  cbv zeta.
  assert (Hl : terminals (run [(calm, ExecuteTool "nmap"); (no_container, NextTick)]
                 (initial_state 123)) !! "tool_nmap_123" = None) by (vm_compute; reflexivity).
  assert (Ha : activeTerminals (run [(calm, ExecuteTool "nmap"); (no_container, NextTick)]
                 (initial_state 123))
               = [] ++ mkActiveTerminal "tool_nmap_123" "nmap - guided mode" false :: [])
    by (vm_compute; reflexivity).
  split_and!; [exact Hl | exact Ha |].
  destruct (close_unregistered_removes_entry calm "tool_nmap_123" _ Hl)
    as (_ & _ & _ & Hrm & _).
  exact (Hrm _ _ _ Ha eq_refl (Forall_nil_2 _)).
Defined.

Lemma first_removed_clears sid (l : list ActiveTerminal) :
  NoDup (sessionId <$> l) →
  Forall (λ t, sessionId t ≠ sid)
    (match findIndex (λ t, bool_decide (sessionId t = sid)) l with
     | Some i => delete i l
     | None => l
     end).
Proof.
  intros Hnd. destruct (findIndex _ l) as [i|] eqn:Hi.
  - apply findIndex_Some_split in Hi as (l1 & x & l2 & -> & <- & Hx & Hl1).
    rewrite delete_middle. apply bool_decide_eq_true in Hx.
    rewrite fmap_app, fmap_cons in Hnd.
    apply NoDup_app in Hnd as (_ & _ & Hnd). apply NoDup_cons in Hnd as [Hx2 _].
    apply Forall_app. split; [by apply not_sid_false|].
    apply Forall_forall. intros t Ht Heq. apply Hx2.
    apply list_elem_of_fmap. exists t. split; [congruence | done].
  - apply not_sid_false. by apply findIndex_None_Forall.
Qed.

(** X10.  Closing a terminal from the page twice is closing it once, when the
    list names each session once and the teardown does not throw: after
    the first call the session is neither registered nor listed, and
    the second call finds nothing to do. *)
Theorem user_close_is_idempotent (env : Env) (sid : string) (s : State) :
  NoDup (sessionId <$> activeTerminals s) →
  (∀ d, terminals s !! sid = Some d →
        dispose_outcome env (terminal d) = None ∧
        disconnect_outcome env (resizeObserver d) = None) →
  let c := App.closeTerminal env sid in
  (c;; c) s = c s ∧
  result c s = Ok tt ∧
  terminals (exec c s) !! sid = None ∧
  Forall (λ t, sessionId t ≠ sid) (activeTerminals (exec c s)).
Proof.
  intros Hnd Hclean c. subst c.
  pose proof (first_removed_clears sid _ Hnd) as Hcl.
  assert (∃ s1, App.closeTerminal env sid s = (Ok tt, s1) ∧
                terminals s1 !! sid = None ∧
                Forall (λ t, sessionId t ≠ sid) (activeTerminals s1))
    as (s1 & E & Hl1 & Ha1).
  { destruct (terminals s !! sid) as [d|] eqn:Hl.
    - destruct (Hclean d eq_refl) as [H1 H2].
      rewrite (app_closeTerminal_clean _ _ _ _ Hl H1 H2). eexists. split; [done|].
      cbv zeta. destruct (findIndex _ _); take_apart s; state_cbv;
        (split; [apply lookup_delete_eq | exact Hcl]).
    - rewrite (app_closeTerminal_absent _ _ _ Hl). eexists. split; [done|].
      destruct (findIndex _ _); take_apart s; state_cbv; by split. }
  unfold result, exec. unfold mbind, M_bind. rewrite E. cbn [fst snd].
  split_and!; try done.
  rewrite (app_closeTerminal_absent _ _ _ Hl1), findIndex_none; [done|].
  by apply not_sid_false.
Qed.

Lemma user_close_is_idempotent_witness :
  NoDup (sessionId <$> activeTerminals two_sessions) ∧
  let c := App.closeTerminal calm "tool_nmap_123" in
  (c;; c) two_sessions = c two_sessions ∧
  terminals (exec c two_sessions) !! "tool_nmap_123" = None.
Proof.
  assert (Hnd : NoDup (sessionId <$> activeTerminals two_sessions)).
  { assert (sessionId <$> activeTerminals two_sessions = ["tool_nmap_123"; "tool_zap_128"])
      as -> by (vm_compute; reflexivity).
    apply NoDup_cons. split; [|apply NoDup_singleton].
    intros ?%list_elem_of_singleton. discriminate. }
  split; [exact Hnd|].
  destruct (user_close_is_idempotent calm "tool_nmap_123" two_sessions Hnd
              (λ _ _, conj eq_refl eq_refl)) as (H1 & _ & H3 & _).
  split; [exact H1 | exact H3].
Defined.

Lemma minimizeTerminal_spec sid s :
  App.minimizeTerminal sid s =
    (Ok tt,
     set_activeTerminals
       (match findIndex (λ t, bool_decide (sessionId t = sid)) (activeTerminals s) with
        | Some i =>
            alter (λ t, mkActiveTerminal (sessionId t) (title t) (negb (minimized t))) i
              (activeTerminals s)
        | None => activeTerminals s
        end) s).
Proof. reflexivity. Qed.

(** X11.  Minimising toggles the first entry of the session and only that:
    the other entries, the ids and titles, the registry and the trace
    stay; a session without an entry changes nothing; and a second call
    undoes the first. *)
Theorem minimize_toggles_first_and_undoes (sid : string) (s : State) :
  let m := App.minimizeTerminal sid in
  result m s = Ok tt ∧
  exec m (exec m s) = s ∧
  terminals (exec m s) = terminals s ∧
  trace (exec m s) = trace s ∧
  sessionId <$> activeTerminals (exec m s) = sessionId <$> activeTerminals s ∧
  (∀ l1 t l2,
     activeTerminals s = l1 ++ t :: l2 → sessionId t = sid →
     Forall (λ u, sessionId u ≠ sid) l1 →
     activeTerminals (exec m s)
       = l1 ++ mkActiveTerminal (sessionId t) (title t) (negb (minimized t)) :: l2) ∧
  (Forall (λ u, sessionId u ≠ sid) (activeTerminals s) → exec m s = s).
Proof.
  intros m. subst m. unfold result, exec. rewrite !minimizeTerminal_spec. cbn [fst snd].
  set (p := λ t, bool_decide (sessionId t = sid)).
  set (f := λ t, mkActiveTerminal (sessionId t) (title t) (negb (minimized t))).
  assert (Hpf : ∀ x, p (f x) = p x) by done.
  assert (Hff : ∀ x, (f ∘ f) x = x) by (intros [? ? []]; reflexivity).
  split_and!.
  - done.
  - destruct (findIndex p (activeTerminals s)) as [i|] eqn:Hi; take_apart s; state_cbv.
    + rewrite (findIndex_alter p f i _ Hpf), Hi, list_alter_alter_eq.
      by rewrite (list_alter_id _ _ _ Hff).
    + by rewrite Hi.
  - by take_apart s.
  - by take_apart s.
  - destruct (findIndex p (activeTerminals s)) as [i|]; take_apart s; state_cbv; [|done].
    rewrite (list_fmap_alter sessionId f (λ x, x)); [by apply list_alter_id|].
    by apply Forall_true.
  - intros l1 t l2 Hl Ht Hl1. rewrite Hl, (findIndex_first p l1 t l2).
    + take_apart s. state_cbv. by rewrite <- (Nat.add_0_r (length l1)), alter_app_r.
    + by apply not_sid_false.
    + by apply bool_decide_eq_true.
  - intros Hall. rewrite (findIndex_none p); [by take_apart s|]. by apply not_sid_false.
Qed.

Lemma minimize_toggles_first_and_undoes_witness :
  exec (App.minimizeTerminal "tool_nmap_123")
    (exec (App.minimizeTerminal "tool_nmap_123") nmap_running) = nmap_running ∧
  activeTerminals (exec (App.minimizeTerminal "tool_nmap_123") nmap_running)
    = [] ++ [mkActiveTerminal "tool_nmap_123" "nmap - guided mode" true].
Proof.
  assert (Hl : activeTerminals nmap_running
               = [] ++ [mkActiveTerminal "tool_nmap_123" "nmap - guided mode" false])
    by (vm_compute; reflexivity).
  destruct (minimize_toggles_first_and_undoes "tool_nmap_123" nmap_running)
    as (_ & H2 & _ & _ & _ & H6 & _).
  split; [exact H2|].
  exact (H6 [] _ [] Hl eq_refl (Forall_nil_2 _)).
Defined.

(** ** Session ids *)

Lemma tool_session_id_inj tool t1 t2 :
  tool_session_id tool t1 = tool_session_id tool t2 → t1 = t2.
Proof.
  unfold tool_session_id. intros H.
  do 3 apply (inj (String.app _)) in H. by apply (inj pretty) in H.
Qed.

(** X12.  The session id is made of the action, the tool and the clock
    reading.  Two starts of one tool get the same id exactly when the
    clock reads the same at both, and an id made by one of the three
    actions is never one made by another, whatever the tools and the
    times. *)
Theorem session_ids_tell_times_and_actions_apart (tool tool' : string) (s s' : State) :
  let new_id (m : M unit) (st : State) := sessionId <$> last (activeTerminals (exec m st)) in
  new_id (App.executeTool tool) s = Some (tool_session_id tool (now s)) ∧
  (new_id (App.executeTool tool) s = new_id (App.executeTool tool) s' ↔ now s = now s') ∧
  (new_id (App.installTool tool) s = new_id (App.installTool tool) s' ↔ now s = now s') ∧
  (new_id (App.removeTool tool) s = new_id (App.removeTool tool) s' ↔ now s = now s') ∧
  new_id (App.executeTool tool) s ≠ new_id (App.installTool tool') s' ∧
  new_id (App.executeTool tool) s ≠ new_id (App.removeTool tool') s' ∧
  new_id (App.installTool tool) s ≠ new_id (App.removeTool tool') s'.
Proof.
  intros new_id. subst new_id. cbv beta. unfold exec.
  rewrite !executeTool_queues, !installTool_queues, !removeTool_queues. cbv zeta.
  take_apart s. take_apart s'. state_cbv. rewrite !last_snoc.
  cbn [fmap option_fmap option_map sessionId].
  split_and!; try done.
  - split; [|by intros ->]. intros H%(inj Some). by apply (tool_session_id_inj tool).
  - split; [|by intros ->]. intros H%(inj Some).
    do 3 apply (inj (String.app _)) in H. by apply (inj pretty) in H.
  - split; [|by intros ->]. intros H%(inj Some).
    do 3 apply (inj (String.app _)) in H. by apply (inj pretty) in H.
Qed.

Lemma session_ids_tell_times_and_actions_apart_witness :
  now (initial_state 5) ≠ now (initial_state 7) ∧
  sessionId <$> last (activeTerminals (exec (App.executeTool "nmap") (initial_state 5))) ≠
  sessionId <$> last (activeTerminals (exec (App.executeTool "nmap") (initial_state 7))).
Proof.
  assert (Hne : now (initial_state 5) ≠ now (initial_state 7)) by (simpl; lia).
  split; [exact Hne|].
  destruct (session_ids_tell_times_and_actions_apart "nmap" "nmap"
              (initial_state 5) (initial_state 7)) as (_ & [H _] & _).
  intros E. exact (Hne (H E)).
Defined.

(** ** From the click to the terminal and back *)

Lemma outbound_app (l k : list Effect) : outbound (l ++ k) = outbound l ++ outbound k.
Proof. unfold outbound. apply omap_app. Qed.

Lemma outbound_creation_effects h sid cid :
  outbound (creation_effects h sid cid) = [terminal_create sid].
Proof. reflexivity. Qed.

Lemma outbound_construction_effects h : outbound (construction_effects h) = [].
Proof. reflexivity. Qed.

(** The turn of [executeTool] followed by the turn of its callback, on
    a page that has the container. *)
Lemma execute_turns_found env tool s :
  ticks s = [] →
  has_element env ("terminal-" +:+ tool_session_id tool (now s)) = true →
  run [(env, ExecuteTool tool); (env, NextTick)] s =
    let sid := tool_session_id tool (now s) in
    set_terminals
      (insert sid (mkTerminalData (next_handle s) (S (next_handle s))
                     (S (S (S (next_handle s))))))
      (set_trace (trace s ++ creation_effects (next_handle s) sid ("terminal-" +:+ sid)
                    ++ [Emit (execute_tool tool (executionMode s))])
         (set_next_handle (4 + next_handle s)
            (set_showToolModal false
               (set_activeTerminals
                  (activeTerminals s ++
                     [mkActiveTerminal sid (tool +:+ " - " +:+ executionMode s +:+ " mode")
                        false]) s)))).
Proof.
  intros Hq Hc. take_apart s. state_cbv. subst.
  unfold run. cbn [foldl fst snd].
  rewrite (step_returns env (ExecuteTool tool) _ _ (executeTool_queues tool _)). state_cbv.
  erewrite (step_returns env NextTick); [reflexivity|]. cbn [handle].
  erewrite run_tick_next; [|reflexivity]. state_cbv.
  rewrite execute_tick_found; [reflexivity | exact Hc].
Qed.

(** The same two turns on a page that lacks the container: the callback
    throws, and the rejection is reported as unhandled. *)
Lemma execute_turns_missing env tool s :
  ticks s = [] →
  has_element env ("terminal-" +:+ tool_session_id tool (now s)) = false →
  run [(env, ExecuteTool tool); (env, NextTick)] s =
    let sid := tool_session_id tool (now s) in
    set_trace (trace s ++ construction_effects (next_handle s)
                 ++ [Unhandled (JsError ("Container terminal-" +:+ sid +:+ " not found"))])
      (set_next_handle (3 + next_handle s)
         (set_showToolModal false
            (set_activeTerminals
               (activeTerminals s ++
                  [mkActiveTerminal sid (tool +:+ " - " +:+ executionMode s +:+ " mode")
                     false]) s))).
Proof.
  intros Hq Hc. take_apart s. state_cbv. subst.
  unfold run. cbn [foldl fst snd].
  rewrite (step_returns env (ExecuteTool tool) _ _ (executeTool_queues tool _)). state_cbv.
  erewrite (step_throws env NextTick).
  2:{ cbn [handle]. erewrite run_tick_next; [|reflexivity]. state_cbv.
      rewrite execute_tick_missing; [reflexivity | exact Hc]. }
  state_cbv. by rewrite <- app_assoc.
Qed.

(** X13.  Starting a tool and closing its terminal again brings the registry
    and the list of active terminals back to where they were; the
    backend has been asked, in this order, to create the terminal, to
    run the tool in the mode of the time, and to close the terminal. *)
Theorem execute_then_close_round_trip (env : Env) (tool : string) (s : State) :
  let sid := tool_session_id tool (now s) in
  ticks s = [] →
  terminals s !! sid = None →
  Forall (λ t, sessionId t ≠ sid) (activeTerminals s) →
  has_element env ("terminal-" +:+ sid) = true →
  dispose_outcome env (next_handle s) = None →
  disconnect_outcome env (S (S (S (next_handle s)))) = None →
  let s' := run [(env, ExecuteTool tool); (env, NextTick); (env, CloseTerminal sid)] s in
  terminals s' = terminals s ∧
  activeTerminals s' = activeTerminals s ∧
  ticks s' = [] ∧
  notifications s' = notifications s ∧
  outbound (trace s') =
    outbound (trace s) ++
    [terminal_create sid; execute_tool tool (executionMode s); terminal_close sid].
Proof.
  intros sid Hq Hl Hall Hc Hd1 Hd2 s'. subst s'.
  change (run [(env, ExecuteTool tool); (env, NextTick); (env, CloseTerminal sid)] s)
    with (step env (CloseTerminal sid) (run [(env, ExecuteTool tool); (env, NextTick)] s)).
  rewrite (execute_turns_found env tool s Hq Hc). cbv zeta. fold sid.
  take_apart s. state_cbv. subst.
  erewrite (step_returns env (CloseTerminal sid)).
  2:{ cbn [handle].
      apply (app_closeTerminal_clean env sid _
               (mkTerminalData nh (S nh) (S (S (S nh))))).
      - state_cbv. apply lookup_insert_eq.
      - exact Hd1.
      - exact Hd2. }
  state_cbv.
  rewrite (findIndex_first _ ats _ []); [|by apply not_sid_false|by apply bool_decide_eq_true].
  state_cbv. rewrite delete_middle, app_nil_r.
  split_and!; [by apply delete_insert_id | done | done | done |].
  rewrite !outbound_app, outbound_creation_effects. by rewrite <- !app_assoc.
Qed.

Lemma execute_then_close_round_trip_witness :
  let s' := run [(calm, ExecuteTool "zap"); (calm, NextTick);
                 (calm, CloseTerminal (tool_session_id "zap" (now nmap_running)))]
              nmap_running in
  terminals s' = terminals nmap_running ∧
  activeTerminals s' = activeTerminals nmap_running.
Proof.
  assert (Hl : terminals nmap_running !! tool_session_id "zap" (now nmap_running) = None)
    by (vm_compute; reflexivity).
  assert (Hall : Forall (λ t, sessionId t ≠ tool_session_id "zap" (now nmap_running))
                   (activeTerminals nmap_running)).
  { assert (activeTerminals nmap_running
            = [mkActiveTerminal "tool_nmap_123" "nmap - guided mode" false]) as ->
      by (vm_compute; reflexivity).
    apply Forall_singleton. vm_compute. discriminate. }
  destruct (execute_then_close_round_trip calm "zap" nmap_running
              eq_refl Hl Hall eq_refl eq_refl eq_refl) as (H1 & H2 & _).
  split; [exact H1 | exact H2].
Defined.

(** X14.  When the page has no container for the new terminal, the entry that
    [executeTool] pushed stays in the list with no terminal behind it:
    nothing is registered, nothing is sent and no notification is
    raised; the rejection is left unhandled.  Closing the entry takes
    it off the list without a word to the backend. *)
Theorem failed_start_leaves_entry_without_terminal (env env' : Env) (tool : string)
    (s : State) :
  let sid := tool_session_id tool (now s) in
  ticks s = [] →
  has_element env ("terminal-" +:+ sid) = false →
  let s1 := run [(env, ExecuteTool tool); (env, NextTick)] s in
  let s2 := step env' (CloseTerminal sid) s1 in
  activeTerminals s1 =
    activeTerminals s ++
    [mkActiveTerminal sid (tool +:+ " - " +:+ executionMode s +:+ " mode") false] ∧
  terminals s1 = terminals s ∧
  outbound (trace s1) = outbound (trace s) ∧
  notifications s1 = notifications s ∧
  last (trace s1) =
    Some (Unhandled (JsError ("Container terminal-" +:+ sid +:+ " not found"))) ∧
  (terminals s !! sid = None →
   Forall (λ t, sessionId t ≠ sid) (activeTerminals s) →
   activeTerminals s2 = activeTerminals s ∧ trace s2 = trace s1).
Proof.
  intros sid Hq Hc s1 s2. subst s2 s1.
  rewrite (execute_turns_missing env tool s Hq Hc). cbv zeta. fold sid.
  take_apart s. state_cbv. subst.
  split_and!; try done.
  - by rewrite !outbound_app, outbound_construction_effects, !app_nil_r.
  - by rewrite app_assoc, last_snoc.
  - intros Hl Hall.
    erewrite (step_returns env' (CloseTerminal sid)).
    2:{ cbn [handle]. apply app_closeTerminal_absent. exact Hl. }
    state_cbv.
    rewrite (findIndex_first _ ats _ []); [|by apply not_sid_false|by apply bool_decide_eq_true].
    state_cbv. by rewrite delete_middle, app_nil_r.
Qed.

Lemma failed_start_leaves_entry_without_terminal_witness :
  let s1 := run [(no_container, ExecuteTool "nmap"); (no_container, NextTick)]
              (initial_state 123) in
  sessionId <$> activeTerminals s1 = ["tool_nmap_123"] ∧
  terminals s1 = ∅ ∧
  activeTerminals (step calm (CloseTerminal "tool_nmap_123") s1) = [].
Proof.
  destruct (failed_start_leaves_entry_without_terminal no_container calm "nmap"
              (initial_state 123) eq_refl eq_refl) as (H1 & H2 & _ & _ & _ & H6).
  split_and!.
  - cbv zeta. rewrite H1. reflexivity.
  - exact H2.
  - exact (proj1 (H6 (lookup_empty _) (Forall_nil_2 _))).
Defined.

(** ** Installing and removing a tool *)

Lemma requests_creation_effects h sid cid : requests (creation_effects h sid cid) = [].
Proof. reflexivity. Qed.

Lemma outbound_poll_effects {A} url what (o : FetchOutcome A) :
  outbound (poll_effects url what o) = [].
Proof. unfold poll_effects. by destruct (fetch_clean o). Qed.

Lemma fetch_accepted {A} (o : FetchOutcome A) :
  fetch_failed o = false → ∃ st js, o = Responded st js ∧ ok (mkResponse st js) = true.
Proof.
  destruct o as [e | st js]; simpl; [done|]. intros H%negb_false_iff. eauto.
Qed.

(** The callback of [installTool] on a page that has the container,
    when the backend accepts the request: the terminal is created, the
    request goes out, and the poll runs. *)
Lemma install_tick_accepted env sid cid tool s :
  has_element env cid = true →
  fetch_failed (api_tool env tool "install") = false →
  App.tick_body env (InstallTick sid cid tool) s =
    App.fetchData env
      (set_terminals
         (insert sid (mkTerminalData (next_handle s) (S (next_handle s))
                        (S (S (S (next_handle s))))))
         (set_trace (trace s ++ creation_effects (next_handle s) sid cid
                       ++ [Fetch "POST" ("/api/tool/" +:+ tool) (action_body "install")])
            (set_next_handle (4 + next_handle s) s))).
Proof.
  intros Hc (st & js & Ho & Hok)%fetch_accepted. unfold App.tick_body.
  unfold mbind at 1. unfold M_bind at 1. rewrite (createTerminal_found _ _ _ _ Hc).
  rewrite Ho. unfold fetch. unfold_m. rewrite Hok. take_apart s. state_cbv.
  by rewrite <- app_assoc.
Qed.

Lemma remove_tick_accepted env sid cid tool s :
  has_element env cid = true →
  fetch_failed (api_tool env tool "remove") = false →
  App.tick_body env (RemoveTick sid cid tool) s =
    App.fetchData env
      (set_terminals
         (insert sid (mkTerminalData (next_handle s) (S (next_handle s))
                        (S (S (S (next_handle s))))))
         (set_trace (trace s ++ creation_effects (next_handle s) sid cid
                       ++ [Fetch "POST" ("/api/tool/" +:+ tool) (action_body "remove")])
            (set_next_handle (4 + next_handle s) s))).
Proof.
  intros Hc (st & js & Ho & Hok)%fetch_accepted. unfold App.tick_body.
  unfold mbind at 1. unfold M_bind at 1. rewrite (createTerminal_found _ _ _ _ Hc).
  rewrite Ho. unfold fetch. unfold_m. rewrite Hok. take_apart s. state_cbv.
  by rewrite <- app_assoc.
Qed.

(** X15.  An install or a removal that the backend accepts ends in a poll:
    the three collections are what the three endpoints delivered, after
    one POST and the three GETs in their order.  The terminal opened for
    it is registered and listed and stays so, only its creation is
    announced on the socket, and no notification tells the user. *)
Theorem accepted_tool_action_refreshes (install : bool) (env : Env) (tool : string)
    (s : State) :
  let action := if install then InstallTool tool else RemoveTool tool in
  let verb := if install then "install" else "remove" in
  let heading := if install then "Installing " else "Removing " in
  let sid := verb +:+ "_" +:+ tool +:+ "_" +:+ pretty (now s) in
  ticks s = [] →
  has_element env ("terminal-" +:+ sid) = true →
  fetch_failed (api_tool env tool verb) = false →
  let s' := run [(env, action); (env, NextTick)] s in
  tools s' = received (api_tools env) ∧
  categories s' = received (api_categories env) ∧
  sessions s' = received (api_sessions env) ∧
  loading s' = false ∧
  requests (drop (length (trace s)) (trace s')) =
    ["/api/tool/" +:+ tool; "/api/tools"; "/api/categories"; "/api/sessions"] ∧
  Fetch "POST" ("/api/tool/" +:+ tool) (action_body verb) ∈ trace s' ∧
  outbound (trace s') = outbound (trace s) ++ [terminal_create sid] ∧
  terminals s' !! sid =
    Some (mkTerminalData (next_handle s) (S (next_handle s)) (S (S (S (next_handle s))))) ∧
  activeTerminals s' = activeTerminals s ++ [mkActiveTerminal sid (heading +:+ tool) false] ∧
  notifications s' = notifications s.
Proof.
  intros action verb heading sid Hq Hc Hf s'. subst s' action.
  take_apart s. state_cbv. subst. unfold run. cbn [foldl fst snd].
  destruct install; subst verb heading sid.
  - rewrite (step_returns env (InstallTool tool) _ _ (installTool_queues tool _)). state_cbv.
    erewrite (step_returns env NextTick).
    2:{ cbn [handle]. erewrite run_tick_next; [|reflexivity]. state_cbv.
        rewrite (install_tick_accepted _ _ _ _ _ Hc Hf). apply fetchData_eq. }
    state_cbv. rewrite <- !app_assoc, new_effects_app.
    rewrite !requests_app, !outbound_app, !requests_poll_effects, requests_creation_effects,
      outbound_creation_effects, !outbound_poll_effects.
    split_and!; try done; [in_list | apply lookup_insert_eq].
  - rewrite (step_returns env (RemoveTool tool) _ _ (removeTool_queues tool _)). state_cbv.
    erewrite (step_returns env NextTick).
    2:{ cbn [handle]. erewrite run_tick_next; [|reflexivity]. state_cbv.
        rewrite (remove_tick_accepted _ _ _ _ _ Hc Hf). apply fetchData_eq. }
    state_cbv. rewrite <- !app_assoc, new_effects_app.
    rewrite !requests_app, !outbound_app, !requests_poll_effects, requests_creation_effects,
      outbound_creation_effects, !outbound_poll_effects.
    split_and!; try done; [in_list | apply lookup_insert_eq].
Qed.

Lemma accepted_tool_action_refreshes_witness :
  let s' := run [(sessions_down, InstallTool "nmap"); (sessions_down, NextTick)]
              (initial_state 123) in
  tools s' = [mkTool "nmap" true] ∧ sessions s' = [] ∧ notifications s' = [].
Proof.
  destruct (accepted_tool_action_refreshes true sessions_down "nmap" (initial_state 123)
              eq_refl eq_refl eq_refl) as (H1 & _ & H3 & _ & _ & _ & _ & _ & _ & H10).
  split_and!; [exact H1 | exact H3 | exact H10].
Defined.

(** ** Notifications leave the screen *)

Lemma elem_of_expired_entry (n : Notification) (fired : list (Z * Z))
    (ns : list Notification) :
  n ∈ foldl (λ ns p, filter (λ n, id n ≠ p.2) ns) ns fired ↔
  n ∈ ns ∧ ∀ p, p ∈ fired → p.2 ≠ id n.
Proof.
  revert ns. induction fired as [|p fired IH]; intros ns; simpl.
  - split; [intros H; split; [done|] | by intros [H _]].
    intros p Hp. by apply elem_of_nil in Hp.
  - rewrite IH, list_elem_of_filter. split.
    + intros [[Hne Hn] Hall]. split; [done|].
      intros q [->|Hq]%elem_of_cons; [congruence | by apply Hall].
    + intros [Hn Hall]. split_and!; [|done|].
      * intros Heq. apply (Hall p); [left | done].
      * intros q Hq. apply Hall. by right.
Qed.

Lemma all_expiring_invariant l s : all_expiring s → all_expiring (run l s).
Proof.
  apply run_core_invariant.
  - intros s1 s2 Hc. destruct (core_eq _ _ Hc) as (_ & Hn & _ & Ht & Hw).
    unfold all_expiring. by rewrite Hn, Ht, Hw.
  - intros s1 Hs. by take_apart s1.
  - intros m k s1 Hs. destruct (showNotification_fields m k s1) as (Hn & _ & Ht & Hw).
    unfold all_expiring. rewrite Hn, Ht, Hw. intros n [Hin|Hin]%elem_of_app.
    + destruct (Hs n Hin) as (t & Hin' & Hdue). exists t. split; [in_list | done].
    + apply list_elem_of_singleton in Hin as ->. exists (now s1 + 3000).
      split; [simpl; in_list | lia].
  - intros dt s1 Hs. destruct (advance_fields dt s1) as (Hn & _ & Ht & Hw). cbv zeta in *.
    unfold all_expiring. rewrite Hn, Ht, Hw. intros n [Hin Hall]%elem_of_expired_entry.
    destruct (Hs n Hin) as (t & Hin' & Hdue). exists t.
    destruct (decide (t ≤ now s1 + Z.max 0 dt)) as [Hfired|Hwaits].
    + exfalso. apply (Hall (t, id n)); [|done]. apply list_elem_of_filter. by split.
    + split; [apply list_elem_of_filter; by split | lia].
Qed.

(** X16.  Every notification on the screen has its removal pending and due
    within 3000 ms; so when the clock moves on by 3000 ms or more, the
    screen is left without notifications. *)
Theorem notifications_gone_within_three_seconds (s : State) :
  reachable s →
  all_expiring s ∧
  ∀ (env : Env) (dt : Z), 3000 ≤ dt → notifications (step env (Advance dt) s) = [].
Proof.
  intros (t0 & l0 & ->).
  assert (Hs : all_expiring (run l0 (initial_state t0))).
  { apply all_expiring_invariant. intros n Hn. simpl in Hn. by apply elem_of_nil in Hn. }
  split; [exact Hs|]. intros env dt Hdt. rewrite step_advance.
  destruct (advance_fields dt (run l0 (initial_state t0))) as (Hn & _). cbv zeta in Hn.
  rewrite Hn. clear Hn. generalize dependent (run l0 (initial_state t0)). intros s Hs.
  destruct (foldl _ _ _) as [|n rest] eqn:E; [done|]. exfalso.
  assert (Hin : n ∈ n :: rest) by left. rewrite <- E in Hin.
  apply elem_of_expired_entry in Hin as [Hin Hall].
  destruct (Hs n Hin) as (t & Hin' & Hdue).
  apply (Hall (t, id n)); [|done]. apply list_elem_of_filter. split; [simpl; lia | done].
Qed.

Lemma notifications_gone_within_three_seconds_witness :
  let s := run [(calm, ShowNotification "Saved" "success"); (calm, Advance 1000);
                (calm, TerminalError "backend down")] (initial_state 0) in
  length (notifications s) = 2%nat ∧
  notifications (step calm (Advance 3000) s) = [].
Proof.
  split; [reflexivity|].
  refine (proj2 (notifications_gone_within_three_seconds _ _) calm 3000 _); [|lia].
  exists 0, [(calm, ShowNotification "Saved" "success"); (calm, Advance 1000);
             (calm, TerminalError "backend down")]. reflexivity.
Defined.

(** ** The sorted lists and the counters of the dashboard *)

Section Sorting.
Context {A : Type} (cmp : A → A → Z).

Lemma sort_insert_perm x l : sort_insert cmp x l ≡ₚ x :: l.
Proof.
  induction l as [|y l IH]; simpl; [done|].
  destruct (cmp x y <=? 0); [done|]. rewrite IH. apply Permutation_swap.
Qed.

Lemma js_sort_perm l : js_sort cmp l ≡ₚ l.
Proof.
  induction l as [|x l IH]; simpl; [done|].
  unfold js_sort in *. simpl. by rewrite sort_insert_perm, IH.
Qed.

Lemma sort_insert_sorted x l :
  consistent cmp →
  StronglySorted (λ a b, cmp a b ≤ 0) l →
  StronglySorted (λ a b, cmp a b ≤ 0) (sort_insert cmp x l).
Proof.
  intros [Htotal Htrans]. induction 1 as [|y l Hl IH Hy]; simpl.
  - by repeat constructor.
  - destruct (cmp x y <=? 0) eqn:E.
    + apply Z.leb_le in E. constructor; [by constructor|].
      constructor; [done|]. eapply Forall_impl; [exact Hy|].
      intros z Hz. by apply (Htrans x y z).
    + apply Z.leb_gt in E. constructor; [done|].
      rewrite sort_insert_perm. constructor; [|done].
      destruct (Htotal x y); [lia | done].
Qed.

Lemma js_sort_sorted l :
  consistent cmp → StronglySorted (λ a b, cmp a b ≤ 0) (js_sort cmp l).
Proof.
  intros Hc. induction l as [|x l IH]; [constructor|].
  unfold js_sort in *. simpl. by apply sort_insert_sorted.
Qed.

(** An element goes in before every element it ties with: the ones it
    passes come strictly before it. *)
Lemma sort_insert_filter_in (P : A → Prop) `{!∀ x, Decision (P x)} x l :
  P x → (∀ y, P y → cmp x y ≤ 0) →
  filter P (sort_insert cmp x l) = x :: filter P l.
Proof.
  intros Hx HP. induction l as [|y l IH]; simpl.
  - by rewrite filter_cons_True.
  - destruct (cmp x y <=? 0) eqn:E; [by rewrite filter_cons_True|].
    apply Z.leb_gt in E. rewrite !(filter_cons _ y).
    destruct (decide (P y)) as [Hy|Hy]; [|exact IH]. specialize (HP y Hy). lia.
Qed.

Lemma sort_insert_filter_out (P : A → Prop) `{!∀ x, Decision (P x)} x l :
  ¬ P x → filter P (sort_insert cmp x l) = filter P l.
Proof.
  intros Hx. induction l as [|y l IH]; simpl.
  - by rewrite filter_cons_False.
  - destruct (cmp x y <=? 0); [by rewrite filter_cons_False|].
    rewrite !(filter_cons _ y). by rewrite IH.
Qed.

End Sorting.

Lemma StronglySorted_impl {A} (R1 R2 : A → A → Prop) (l : list A) :
  (∀ a b, R1 a b → R2 a b) → StronglySorted R1 l → StronglySorted R2 l.
Proof.
  intros HR. induction 1 as [|x l Hl IH Hx]; constructor; [done|].
  eapply Forall_impl; [exact Hx|]. intros y. apply HR.
Qed.

(** X17.  [sortedSessions] holds the sessions of the snapshot, each as often
    as the snapshot does, with the ids in descending order, and sessions
    with the same id in the order of the snapshot. *)
Theorem sortedSessions_descending_and_stable (s : State) :
  Computed.sortedSessions s ≡ₚ sessions s ∧
  StronglySorted (λ a b, session_id_of b ≤ session_id_of a) (Computed.sortedSessions s) ∧
  ∀ k, filter (λ x, session_id_of x = k) (Computed.sortedSessions s)
       = filter (λ x, session_id_of x = k) (sessions s).
Proof.
  unfold Computed.sortedSessions. split_and!.
  - apply js_sort_perm.
  - apply (StronglySorted_impl (λ a b, session_id_of b - session_id_of a ≤ 0));
      [intros a b; lia|].
    apply (js_sort_sorted (λ a b, session_id_of b - session_id_of a)).
    split; intros; lia.
  - intros k. induction (sessions s) as [|x l IH]; [done|].
    unfold js_sort in *. simpl.
    destruct (decide (session_id_of x = k)) as [Hx|Hx].
    + rewrite sort_insert_filter_in; [|done|intros y Hy; lia].
      by rewrite filter_cons_True, IH.
    + rewrite sort_insert_filter_out; [|done]. by rewrite filter_cons_False, IH.
Qed.

(** X18.  [sortedTools] holds the tools of the snapshot, each as often as the
    snapshot does, in the order of [localeCompare] on the names, for a
    [localeCompare] that orders the names consistently. *)
Theorem sortedTools_ordered_by_name (localeCompare : string → string → Z) (s : State) :
  consistent localeCompare →
  Computed.sortedTools localeCompare s ≡ₚ tools s ∧
  StronglySorted (λ a b, localeCompare (tool_name a) (tool_name b) ≤ 0)
    (Computed.sortedTools localeCompare s).
Proof.
  intros [Htotal Htrans]. unfold Computed.sortedTools. split.
  - apply js_sort_perm.
  - apply (js_sort_sorted (λ a b, localeCompare (tool_name a) (tool_name b))).
    split; [intros a b; apply Htotal | intros a b c; apply Htrans].
Qed.

Lemma sortedTools_ordered_by_name_witness :
  let by_length (a b : string) := Z.of_nat (String.length a) - Z.of_nat (String.length b) in
  let s := set_tools [mkTool "sqlmap" false; mkTool "nmap" true] (initial_state 0) in
  consistent by_length ∧
  Computed.sortedTools by_length s ≡ₚ tools s.
Proof.
  intros by_length s.
  assert (Hc : consistent by_length) by (split; unfold by_length; intros; lia).
  split; [exact Hc|].
  exact (proj1 (sortedTools_ordered_by_name by_length s Hc)).
Defined.

Lemma foldl_add_sum {A} (f : A → nat) (l : list A) (a : nat) :
  foldl (λ acc x, (acc + f x)%nat) a l = (a + sum_list (f <$> l))%nat.
Proof.
  revert a. induction l as [|x l IH]; intros a; [simpl; lia|].
  cbn [foldl]. rewrite IH.
  change (sum_list (f <$> x :: l)) with (f x + sum_list (f <$> l))%nat. lia.
Qed.

(** X19.  The counters of the dashboard: none exceeds the length of its
    collection, a session without a history adds no task, and after a
    poll whose fetch of a collection failed the counters of that
    collection read zero. *)
Theorem counters_follow_the_poll (env : Env) (s : State) :
  let s' := step env Poll s in
  (Computed.installedToolsCount s ≤ length (tools s))%nat ∧
  (Computed.activeSessionsCount s ≤ length (sessions s))%nat ∧
  Computed.totalTasks s = sum_list (Computed.history_length <$> sessions s) ∧
  (fetch_failed (api_tools env) = true → Computed.installedToolsCount s' = 0%nat) ∧
  (fetch_failed (api_sessions env) = true →
   Computed.activeSessionsCount s' = 0%nat ∧ Computed.totalTasks s' = 0%nat ∧
   Computed.sortedSessions s' = []).
Proof.
  intros s'. subst s'. rewrite step_poll.
  destruct (fetchData_spec env s) as (_ & Ht & _ & Hs & _). cbv zeta in Ht, Hs.
  unfold Computed.installedToolsCount, Computed.activeSessionsCount, Computed.totalTasks,
    Computed.sortedSessions.
  rewrite Ht, Hs. split_and!.
  - apply length_filter.
  - apply length_filter.
  - by rewrite foldl_add_sum.
  - intros Hf. by rewrite (failed_received _ Hf).
  - intros Hf. by rewrite (failed_received _ Hf).
Qed.

Lemma counters_follow_the_poll_witness :
  fetch_failed (api_sessions sessions_down) = true ∧
  Computed.totalTasks (step sessions_down Poll (initial_state 0)) = 0%nat ∧
  Computed.installedToolsCount (step sessions_down Poll (initial_state 0)) = 1%nat.
Proof.
  split; [reflexivity|].
  destruct (counters_follow_the_poll sessions_down (initial_state 0)) as (_ & _ & _ & _ & H).
  split; [exact (proj1 (proj2 (H eq_refl))) | reflexivity].
Defined.

(** ** The detail modals *)










(** ** Emulators are disposed once *)

Lemma disposed_app (l k : list Effect) : disposed (l ++ k) = disposed l ++ disposed k.
Proof. unfold disposed. apply omap_app. Qed.

Lemma teardown_tidy_weaken s s' :
  teardown_tidy s →
  terminals s' = terminals s →
  disposed (trace s') = disposed (trace s) →
  (next_handle s ≤ next_handle s')%nat →
  teardown_tidy s'.
Proof.
  intros ([Hlt Hinj] & Hd & Hnd & Hout) Ht Htr Hle.
  unfold teardown_tidy, registry_wf, registered. rewrite Ht, Htr. split_and!; try done.
  - intros sid d Hl. specialize (Hlt sid d Hl). lia.
  - intros h Hh. specialize (Hd h Hh). lia.
Qed.

Lemma teardown_tidy_createTerminal env sid cid :
  hoare teardown_tidy (TerminalManager.createTerminal env sid cid).
Proof.
  intros s (Hwf & Hd & Hnd & Hout).
  pose proof (registry_wf_createTerminal env sid cid s Hwf) as Hwf'.
  split; [exact Hwf'|]. clear Hwf'. revert Hd Hnd Hout. unfold exec, registered.
  destruct (has_element env cid) eqn:Hc.
  - rewrite (createTerminal_found _ _ _ _ Hc). take_apart s. state_cbv.
    rewrite disposed_app. change (disposed (creation_effects _ _ _)) with (@nil nat).
    rewrite app_nil_r. intros Hd Hnd Hout. split_and!; [|done|].
    + intros h Hh. specialize (Hd h Hh). lia.
    + intros h Hh (sid' & d & Hl & Hterm). rewrite lookup_insert in Hl.
      case_decide.
      * injection Hl as <-. simpl in Hterm. specialize (Hd h Hh). lia.
      * apply (Hout h Hh). by exists sid', d.
  - rewrite (createTerminal_missing _ _ _ _ Hc). take_apart s. state_cbv.
    rewrite disposed_app. change (disposed (construction_effects _)) with (@nil nat).
    rewrite app_nil_r. intros Hd Hnd Hout. split_and!; [|done|done].
    intros h Hh. specialize (Hd h Hh). lia.
Qed.

Lemma teardown_tidy_closeTerminal env sid :
  teardown_returns env →
  hoare teardown_tidy (TerminalManager.closeTerminal env sid).
Proof.
  intros Henv s (Hwf & Hd & Hnd & Hout).
  pose proof (registry_wf_closeTerminal env sid s Hwf) as Hwf'.
  split; [exact Hwf'|]. clear Hwf'. revert Hd Hnd Hout. unfold exec, registered.
  destruct (terminals s !! sid) as [d|] eqn:Hl.
  - destruct (Henv (terminal d)) as [H1 _]. destruct (Henv (resizeObserver d)) as [_ H2].
    rewrite (closeTerminal_clean _ _ _ _ Hl H1 H2).
    destruct Hwf as [Hlt Hinj]. take_apart s. state_cbv.
    rewrite disposed_app.
    change (disposed [Dispose (terminal d); Disconnect (resizeObserver d);
                      RegistryDelete sid; Emit (terminal_close sid)])
      with [terminal d].
    intros Hd Hnd Hout.
    assert (Hreg : ¬ terminal d ∈ disposed tr).
    { intros Hin. apply (Hout _ Hin). by exists sid, d. }
    split_and!.
    + intros h [Hh|Hh]%elem_of_app; [by apply Hd|].
      apply list_elem_of_singleton in Hh as ->. by destruct (Hlt sid d Hl) as (? & _).
    + apply NoDup_app. split_and!; [done | | apply NoDup_singleton].
      intros h Hh ->%list_elem_of_singleton. by apply Hreg.
    + intros h [Hh|Hh]%elem_of_app (sid' & d' & [Hne Hl']%lookup_delete_Some & Hterm).
      * apply (Hout h Hh). by exists sid', d'.
      * apply list_elem_of_singleton in Hh as ->. apply Hne.
        apply (Hinj _ _ _ _ Hl Hl'). by left.
  - rewrite (closeTerminal_absent _ _ _ Hl). by intros.
Qed.

Ltac tidy_fin :=
  idtac;
  let s := fresh "s" in let Hs := fresh "Hs" in
  intros s Hs; apply (teardown_tidy_weaken s _ Hs); take_apart s; state_cbv;
  [ reflexivity
  | first [reflexivity | by rewrite disposed_app, app_nil_r]
  | lia ].

Lemma teardown_tidy_step env a s :
  teardown_returns env → teardown_tidy s → teardown_tidy (step env a s).
Proof.
  intros Henv. apply step_hoare.
  - intros s' e Hs'. apply (teardown_tidy_weaken s' _ Hs'); take_apart s'; state_cbv;
      [reflexivity | by rewrite disposed_app, app_nil_r | lia].
  - destruct a;
      unfold handle, run_tick, App.tick_body,
        App.on_connect, App.on_terminal_output, App.on_terminal_created,
        App.on_terminal_closed, App.on_terminal_error, App.fetchData, App.toggleView,
        App.executeTool, App.installTool, App.removeTool, App.minimizeTerminal,
        App.closeTerminal, App.closeModals, App.getToolDetails, App.getSessionDetails,
        App.toggleExecutionMode, App.showNotification, TerminalManager.write;
      hoare_go
        ltac:(idtac;
              match goal with
              | |- hoare _ (TerminalManager.createTerminal _ _ _) =>
                  apply teardown_tidy_createTerminal
              | |- hoare _ (TerminalManager.closeTerminal _ _) =>
                  apply teardown_tidy_closeTerminal; exact Henv
              | |- hoare _ (advance _) =>
                  let s := fresh "s" in let Hs := fresh "Hs" in
                  intros s Hs; unfold exec; rewrite advance_spec;
                  apply (teardown_tidy_weaken s _ Hs); by take_apart s
              end)
        tidy_fin.
Qed.

(** X22.  As long as [dispose] and [disconnect] return normally, no emulator
    is disposed twice, and a disposed emulator is out of the registry:
    no later output is written to it and no later close reaches it. *)
Theorem no_emulator_disposed_twice (t0 : Z) (l : list (Env * Action)) :
  Forall (λ ea, teardown_returns ea.1) l →
  let s := run l (initial_state t0) in
  NoDup (disposed (trace s)) ∧
  (∀ h, h ∈ disposed (trace s) → ¬ registered s h).
Proof.
  intros Hl. cbv zeta.
  assert (Hinit : teardown_tidy (initial_state t0)).
  { split_and!.
    - split; intros *; simpl; by rewrite lookup_empty.
    - intros h Hh. simpl in Hh. by apply elem_of_nil in Hh.
    - simpl. apply NoDup_nil_2.
    - intros h Hh. simpl in Hh. by apply elem_of_nil in Hh. }
  revert Hinit. generalize (initial_state t0).
  induction Hl as [|[env a] l Henv _ IH]; intros s Hs.
  - destruct Hs as (_ & _ & Hnd & Hout). by split.
  - simpl. apply IH. by apply teardown_tidy_step.
Qed.

Lemma no_emulator_disposed_twice_witness :
  let l := [(calm, ExecuteTool "nmap"); (calm, NextTick);
            (calm, CloseTerminal "tool_nmap_123"); (calm, TerminalClosed "tool_nmap_123")] in
  Forall (λ ea, teardown_returns ea.1) l ∧
  disposed (trace (run l (initial_state 123))) = [0%nat] ∧
  NoDup (disposed (trace (run l (initial_state 123)))).
Proof.
  intros l.
  assert (Hl : Forall (λ ea, teardown_returns ea.1) l).
  { repeat constructor. }
  split_and!; [exact Hl | reflexivity |].
  exact (proj1 (no_emulator_disposed_twice 123 l Hl)).
Defined.
